(** * sdcm/nemesis.py: classes that introduce disruption in clusters

    A shallow embedding of [Nemesis] and its subclasses.  Python
    statements become computations in a state-and-exception monad over a
    [World] that holds the object's attributes ([self.cluster.nodes],
    [self.target_node], [self.termination_event]) and the history of
    everything the object did to the outside (log records, sleeps,
    remote commands, cluster and node calls).  What the outside answers
    is read from an environment [Env], a function of that history. *)

From Stdlib Require Import String List Bool Arith ZArith Lia.
Import ListNotations.
Local Open Scope string_scope.
Local Open Scope list_scope.

(** ** Nodes, exceptions, events and the environment *)

(** A cluster node.  [node_id] stands for the identity of the Python
    object; the other two fields are the attributes the module reads
    ([node.is_seed], [node.instance.private_ip_address]). *)
Record Node : Type := mkNode {
  node_id : nat;
  is_seed : bool;
  private_ip_address : string
}.

Definition Node_eq_dec (a b : Node) : {a = b} + {a <> b}.
Proof. decide equality; auto using string_dec, bool_dec, Nat.eq_dec. Defined.

(** [a == b] on nodes. *)
Definition node_eqb (a b : Node) : bool :=
  if Node_eq_dec a b then true else false.

(** An entry of [cluster.get_node_info_list(...)]: a dict with the
    node's name and its ['ip']. *)
Record NodeInfo : Type := mkNodeInfo {
  info_name : string;
  info_ip : string
}.

(** What the remote executor hands back for a command. *)
Record CmdResult : Type := mkCmdResult {
  command : string;
  duration : Z;
  exit_status : Z
}.

(** The methods [class Nemesis] defines, by name. *)
Inductive MethodName : Type :=
| m___init__
| m_set_target_node
| m_run
| m___str__
| m_disrupt
| m_disrupt_nodetool_drain
| m_disrupt_nodetool_decommission
| m_disrupt_stop_start
| m_disrupt_kill_scylla_daemon
| m__destroy_data
| m_disrupt_destroy_data_then_repair
| m_disrupt_destroy_data_then_rebuild
| m_call_random_disrupt_method
| m_repair_nodetool_repair
| m_repair_nodetool_rebuild.

(** The classes of the module. *)
Inductive Monkey : Type :=
| Nemesis
| StopStartMonkey
| DrainerMonkey
| CorruptThenRepairMonkey
| CorruptThenRebuildMonkey
| DecommissionMonkey
| ChaosMonkey.

(** Calls on the node and cluster objects that return nothing the
    module looks at. *)
Inductive Call : Type :=
| Restart (n : Node)                       (* node.restart() *)
| Destroy (n : Node)                       (* node.destroy() *)
| WaitDbDown (n : Node)                    (* node.wait_db_down() *)
| WaitDbUp (n : Node)                      (* node.wait_db_up() *)
| SendFiles (n : Node) (src dst : string)  (* node.remoter.send_files(src, dst) *)
| AddNodes (count : nat)                   (* cluster.add_nodes(count=...) *)
| WaitForInit (node_list : list Node).     (* cluster.wait_for_init(node_list=...) *)

(** What an attribute of the object holds. *)
Inductive Member : Type :=
| Method (m : MethodName)          (* a bound method defined by the class *)
| Attribute                        (* instance data: not callable *)
| Inherited (is_callable : bool).  (* what every object has *)

Definition callable (x : Member) : bool :=
  match x with
  | Method _ => true
  | Attribute => false
  | Inherited b => b
  end.

(** A value formatted into a message ([%s] of the logger, [{}] of
    [str.format]). *)
Inductive LogArg : Type :=
| ANode (n : option Node)
| AStr (s : string)
| ANum (z : Z)
| AInfoList (l : list NodeInfo)
| AMember (x : Member)           (* an attribute of self, such as a bound method *)
| AFunction (c : Monkey).        (* the undecorated [disrupt] of class c *)

(** The exceptions the module can meet.  The built-in ones are raised by
    the interpreter on the module's own statements; [OtherError] is an
    exception of class [cls] coming out of a collaborator, with a flag
    telling whether [cls] derives from [Exception] (KeyboardInterrupt
    and SystemExit do not). *)
Inductive exc : Type :=
| IndexError                       (* random.choice on an empty sequence *)
| ValueError                       (* list.remove(x): x not in list *)
| AttributeError                   (* attribute access on None *)
| AssertionError (fmt : string) (args : list LogArg)   (* a failed assert, with its message *)
| NotImplementedError (msg : string)
| OtherError (cls : string) (derives_Exception : bool).

(** [isinstance(e, Exception)], what [except Exception] tests. *)
Definition isinstance_Exception (e : exc) : bool :=
  match e with
  | OtherError _ b => b
  | _ => true
  end.

(** The name of the exception's class. *)
Definition exc_class (e : exc) : string :=
  match e with
  | IndexError => "IndexError"
  | ValueError => "ValueError"
  | AttributeError => "AttributeError"
  | AssertionError _ _ => "AssertionError"
  | NotImplementedError _ => "NotImplementedError"
  | OtherError cls _ => cls
  end.

(** How a call on a collaborator ends. *)
Inductive Outcome (A : Type) : Type :=
| Returns (a : A)
| Raises (e : exc)
| NeverReturns.
Arguments Returns {A} a.
Arguments Raises {A} e.
Arguments NeverReturns {A}.

Inductive Level : Type := DEBUG | INFO | ERROR.

(** The name a termination event object goes by. *)
Definition EventId := nat.

(** One thing the object did to the outside, with the answer it got. *)
Inductive Event : Type :=
| EvLog (lvl : Level) (fmt : string) (args : list LogArg) (exc_info : option exc)
| EvSleep (seconds : nat)                                   (* time.sleep *)
| EvTime (now : Z)                                          (* time.time *)
| EvRun (n : Node) (cmd : string) (ignore_status : bool) (res : CmdResult)
| EvCall (c : Call) (o : Outcome unit)
| EvNodeInfo (from : Node) (o : Outcome (list NodeInfo))    (* cluster.get_node_info_list *)
| EvIsSet (ev : EventId) (b : bool).                        (* event.isSet() *)

(** The outside world.  Every answer may depend on the whole history. *)
Record Env : Type := mkEnv {
  env_random : nat -> nat;                                  (* k-th draw of the generator *)
  env_clock : list Event -> Z;                              (* time.time(), in whole seconds *)
  env_exec : list Event -> Node -> string -> Z * Z;         (* exit status and duration of a command *)
  env_call : list Event -> Call -> Outcome unit;
  env_node_info : list Event -> Node -> Outcome (list NodeInfo);
  env_new_node : list Event -> nat -> bool * string;        (* seed flag and address of the i-th node created *)
  env_is_set : list Event -> EventId -> bool;
  env_data_path : string -> string                          (* get_data_path *)
}.

(** ** The object's state *)

Record World : Type := mkWorld {
  cluster_nodes : list Node;              (* self.cluster.nodes *)
  target_node : option Node;              (* self.target_node *)
  termination_event : option EventId;     (* self.termination_event *)
  trace : list Event;                     (* history, oldest first *)
  rng_pos : nat;                          (* draws taken from the generator *)
  next_node_id : nat                      (* identity of the next node object created *)
}.

Definition emit (ev : Event) (w : World) : World :=
  mkWorld (cluster_nodes w) (target_node w) (termination_event w)
          (trace w ++ [ev]) (rng_pos w) (next_node_id w).

Definition with_nodes (l : list Node) (w : World) : World :=
  mkWorld l (target_node w) (termination_event w) (trace w) (rng_pos w) (next_node_id w).

Definition with_target (t : option Node) (w : World) : World :=
  mkWorld (cluster_nodes w) t (termination_event w) (trace w) (rng_pos w) (next_node_id w).

Definition with_termination_event (t : option EventId) (w : World) : World :=
  mkWorld (cluster_nodes w) (target_node w) t (trace w) (rng_pos w) (next_node_id w).

Definition with_rng_pos (k : nat) (w : World) : World :=
  mkWorld (cluster_nodes w) (target_node w) (termination_event w) (trace w) k (next_node_id w).

Definition with_next_node_id (k : nat) (w : World) : World :=
  mkWorld (cluster_nodes w) (target_node w) (termination_event w) (trace w) (rng_pos w) k.

(** ** The monad *)

(** How a statement ends: normally, by an exception, inside a
    collaborator that never returns, or (for the model only) because the
    loop budget [fuel] ran out. *)
Inductive Result (A : Type) : Type :=
| Ok (a : A)
| Raise (e : exc)
| Blocked
| OutOfFuel.
Arguments Ok {A} a.
Arguments Raise {A} e.
Arguments Blocked {A}.
Arguments OutOfFuel {A}.

Definition M (A : Type) : Type := World -> Result A * World.

Definition ret {A} (a : A) : M A := fun w => (Ok a, w).

Definition bind {A B} (m : M A) (f : A -> M B) : M B :=
  fun w =>
    match m w with
    | (Ok a, w') => f a w'
    | (Raise e, w') => (Raise e, w')
    | (Blocked, w') => (Blocked, w')
    | (OutOfFuel, w') => (OutOfFuel, w')
    end.

Definition raise {A} (e : exc) : M A := fun w => (Raise e, w).

Definition out_of_fuel {A} : M A := fun w => (OutOfFuel, w).

Declare Scope py_scope.
Delimit Scope py_scope with py.
Notation "x <- c1 ;; c2" := (bind c1 (fun x => c2))
  (at level 61, c1 at next level, right associativity) : py_scope.
Notation "c1 ;; c2" := (bind c1 (fun _ => c2))
  (at level 61, right associativity) : py_scope.
Local Open Scope py_scope.

(** [try: body / except Exception: handler]. *)
Definition try_except_Exception {A} (body : M A) (handler : exc -> M A) : M A :=
  fun w =>
    match body w with
    | (Raise e, w') =>
        if isinstance_Exception e then handler e w' else (Raise e, w')
    | other => other
    end.

(** [try: body / finally: fin]: [fin] runs after [body] returned or
    raised, and the outcome of [body] stands unless [fin] itself does
    not end normally. *)
Definition try_finally {A} (body : M A) (fin : M unit) : M A :=
  fun w =>
    match body w with
    | (Ok a, w') =>
        match fin w' with
        | (Ok _, w'') => (Ok a, w'')
        | (Raise e, w'') => (Raise e, w'')
        | (Blocked, w'') => (Blocked, w'')
        | (OutOfFuel, w'') => (OutOfFuel, w'')
        end
    | (Raise e, w') =>
        match fin w' with
        | (Ok _, w'') => (Raise e, w'')
        | (Raise e', w'') => (Raise e', w'')
        | (Blocked, w'') => (Blocked, w'')
        | (OutOfFuel, w'') => (OutOfFuel, w'')
        end
    | other => other
    end.

(** Reading and writing the attributes. *)
Definition get {A} (proj : World -> A) : M A := fun w => (Ok (proj w), w).
Definition modify (f : World -> World) : M unit := fun w => (Ok tt, f w).

(** [x.attr] where [x] may be None. *)
Definition deref {A} (x : option A) : M A :=
  match x with
  | Some a => ret a
  | None => raise AttributeError
  end.

(** ** Library calls and collaborators *)

(** [list.remove(x)]: drops the first item equal to [x]; [None] when
    there is none (Python raises ValueError). *)
Fixpoint list_remove (x : Node) (l : list Node) : option (list Node) :=
  match l with
  | [] => None
  | y :: l' =>
      if node_eqb y x then Some l'
      else match list_remove x l' with
           | Some r => Some (y :: r)
           | None => None
           end
  end.

(** [x in l] on strings. *)
Definition str_in (x : string) (l : list string) : bool :=
  existsb (String.eqb x) l.

(** [v == t] where [t] is an attribute that may hold None. *)
Definition node_is (v : Node) (t : option Node) : bool :=
  match t with
  | Some n => node_eqb v n
  | None => false
  end.

Section WithEnv.

Variable env : Env.

(** [random.choice(seq)]: the item at a drawn index below [len(seq)];
    IndexError on an empty sequence. *)
Definition random_choice {A} (seq : list A) : M A :=
  fun w =>
    match seq with
    | [] => (Raise IndexError, w)
    | _ :: _ =>
        match nth_error seq (env_random env (rng_pos w) mod length seq) with
        | Some x => (Ok x, with_rng_pos (S (rng_pos w)) w)
        | None => (Raise IndexError, w)
        end
    end.

(** [self.log.debug/info/error(fmt, *args)]. *)
Definition log (lvl : Level) (fmt : string) (args : list LogArg) : M unit :=
  modify (emit (EvLog lvl fmt args None)).

(** [time.sleep(seconds)]. *)
Definition time_sleep (seconds : nat) : M unit :=
  modify (emit (EvSleep seconds)).

(** [time.time()]. *)
Definition time_time : M Z :=
  fun w => let now := env_clock env (trace w) in (Ok now, emit (EvTime now) w).

(** [event.isSet()]. *)
Definition isSet (ev : EventId) : M bool :=
  fun w => let b := env_is_set env (trace w) ev in (Ok b, emit (EvIsSet ev b) w).

(** A call on a node or on the cluster: it returns, raises or never
    comes back, as the environment has it. *)
Definition call (c : Call) : M unit :=
  fun w =>
    let o := env_call env (trace w) c in
    let w' := emit (EvCall c o) w in
    match o with
    | Returns _ => (Ok tt, w')
    | Raises e => (Raise e, w')
    | NeverReturns => (Blocked, w')
    end.

(** Modelled from the spec: the remote executor [node.remoter.run] is
    not part of this module.  [run(command, ignore_status=false)]
    runs the command on the node and returns its command line and
    duration; a non-zero exit is a failure that propagates unless the
    caller passed [ignore_status=True]. *)
Definition remoter_run (n : Node) (cmd : string) (ignore_status : bool) : M CmdResult :=
  fun w =>
    let '(status, dur) := env_exec env (trace w) n cmd in
    let res := mkCmdResult cmd dur status in
    let w' := emit (EvRun n cmd ignore_status res) w in
    if (status =? 0)%Z || ignore_status then (Ok res, w')
    else (Raise (OtherError "CmdError" true), w').

(** [cluster.get_node_info_list(verification_node)]. *)
Definition get_node_info_list (from : Node) : M (list NodeInfo) :=
  fun w =>
    let o := env_node_info env (trace w) from in
    let w' := emit (EvNodeInfo from o) w in
    match o with
    | Returns l => (Ok l, w')
    | Raises e => (Raise e, w')
    | NeverReturns => (Blocked, w')
    end.

(** Modelled from the spec: [cluster.add_nodes] is not part of this
    module.  [add_nodes(count)] creates [count] new node objects, adds
    them to the cluster's node set and returns them. *)
Definition add_nodes (count : nat) : M (list Node) :=
  call (AddNodes count) ;;
  h <- get trace ;;
  first <- get next_node_id ;;
  let new_nodes :=
    map (fun i => mkNode (first + i) (fst (env_new_node env h i)) (snd (env_new_node env h i)))
        (seq 0 count) in
  modify (fun w => with_next_node_id (first + count)
                     (with_nodes (cluster_nodes w ++ new_nodes) w)) ;;
  ret new_nodes.

(** ** class Nemesis *)

Definition set_target_node : M unit :=
  nodes <- get cluster_nodes ;;
  let non_seed_nodes := filter (fun node => negb (is_seed node)) nodes in
  chosen <- random_choice non_seed_nodes ;;
  modify (with_target (Some chosen)) ;;
  t <- get target_node ;;
  log INFO "Current Target: %s" [ANode t].

(** [__init__(self, cluster, termination_event)]; the cluster is the one
    whose nodes the world holds. *)
Definition __init__ (termination_event_arg : option EventId) : M unit :=
  modify (with_target None) ;;
  set_target_node ;;
  modify (with_termination_event termination_event_arg).

Definition disrupt_nodetool_drain : M unit :=
  t <- get target_node ;;
  log INFO "Drain %s and restart it" [ANode t] ;;
  n <- deref t ;;
  remoter_run n "nodetool -h localhost drain" false ;;
  call (Restart n).

(** The loop [while verification_node == self.target_node:], entered
    with the first draw already made. *)
Fixpoint resample_verification_node (fuel : nat) (verification_node : Node) : M Node :=
  t <- get target_node ;;
  if node_is verification_node t then
    match fuel with
    | 0 => out_of_fuel
    | S fuel' =>
        nodes <- get cluster_nodes ;;
        v <- random_choice nodes ;;
        resample_verification_node fuel' v
    end
  else ret verification_node.

(** [verification_node = random.choice(self.cluster.nodes)] and the
    loop after it. *)
Definition choose_verification_node (fuel : nat) : M Node :=
  nodes <- get cluster_nodes ;;
  v0 <- random_choice nodes ;;
  resample_verification_node fuel v0.

(** The text of [error_msg], before [.format(...)]. *)
Definition error_msg_format : string :=
  "Node that was decommissioned {} still in the cluster. Cluster status info: {}".

Definition disrupt_nodetool_decommission (fuel : nat) : M unit :=
  t <- get target_node ;;
  log INFO "Decommission %s" [ANode t] ;;
  n <- deref t ;;
  let target_node_ip := private_ip_address n in
  result <- remoter_run n "nodetool --host localhost decommission" false ;;
  log DEBUG "%s duration -> %s s" [AStr (command result); ANum (duration result)] ;;
  verification_node <- choose_verification_node fuel ;;
  node_info_list <- get_node_info_list verification_node ;;
  let private_ips := map info_ip node_info_list in
  if str_in target_node_ip private_ips then
    raise (AssertionError error_msg_format [ANode t; AInfoList node_info_list])
  else
    nodes <- get cluster_nodes ;;
    match list_remove n nodes with
    | None => raise ValueError
    | Some rest =>
        modify (with_nodes rest) ;;
        call (Destroy n) ;;
        new_nodes <- add_nodes 1 ;;
        call (WaitForInit new_nodes)
    end.

Definition disrupt_stop_start : M unit :=
  t <- get target_node ;;
  log INFO "Stop %s then restart it" [ANode t] ;;
  n <- deref t ;;
  call (Restart n).

Definition disrupt_kill_scylla_daemon : M unit :=
  t <- get target_node ;;
  log INFO "Kill all scylla processes in %s" [ANode t] ;;
  let kill_cmd := "sudo pkill -9 scylla" in
  n <- deref t ;;
  remoter_run n kill_cmd true ;;
  call (WaitDbDown n) ;;
  call (WaitDbUp n).

Definition _destroy_data : M unit :=
  let break_scylla := env_data_path env "break_scylla.sh" in
  t <- get target_node ;;
  n <- deref t ;;
  call (SendFiles n break_scylla "/tmp/break_scylla.sh") ;;
  remoter_run n "chmod +x /tmp/break_scylla.sh" false ;;
  remoter_run n "/tmp/break_scylla.sh" false ;;
  disrupt_kill_scylla_daemon.

Definition repair_nodetool_repair : M unit :=
  t <- get target_node ;;
  n <- deref t ;;
  result <- remoter_run n "nodetool -h localhost repair" false ;;
  log DEBUG "%s duration -> %s s" [AStr (command result); ANum (duration result)].

(** The body of [for node in self.cluster.nodes:], over the items still
    to visit. *)
Fixpoint rebuild_each (nodes : list Node) : M unit :=
  match nodes with
  | [] => ret tt
  | node :: rest =>
      result <- remoter_run node "nodetool -h localhost rebuild" false ;;
      log DEBUG "%s duration -> %s s" [AStr (command result); ANum (duration result)] ;;
      rebuild_each rest
  end.

Definition repair_nodetool_rebuild : M unit :=
  nodes <- get cluster_nodes ;;
  rebuild_each nodes.

Definition disrupt_destroy_data_then_repair : M unit :=
  t <- get target_node ;;
  log INFO "Destroy user data in %s, then run nodetool repair" [ANode t] ;;
  _destroy_data ;;
  repair_nodetool_repair.

Definition disrupt_destroy_data_then_rebuild : M unit :=
  t <- get target_node ;;
  log INFO "Destroy user data in %s, then run nodetool repair" [ANode t] ;;
  _destroy_data ;;
  repair_nodetool_rebuild.

(** *** Dynamic choice of a disruption *)

(** [dir(self)] with the values: the class body in source order, the
    attributes [__init__] sets, and the members every object inherits
    ([__init__] and [__str__] are the class's own). *)
Definition members : list (string * Member) :=
  [ ("__init__", Method m___init__);
    ("set_target_node", Method m_set_target_node);
    ("run", Method m_run);
    ("__str__", Method m___str__);
    ("disrupt", Method m_disrupt);
    ("disrupt_nodetool_drain", Method m_disrupt_nodetool_drain);
    ("disrupt_nodetool_decommission", Method m_disrupt_nodetool_decommission);
    ("disrupt_stop_start", Method m_disrupt_stop_start);
    ("disrupt_kill_scylla_daemon", Method m_disrupt_kill_scylla_daemon);
    ("_destroy_data", Method m__destroy_data);
    ("disrupt_destroy_data_then_repair", Method m_disrupt_destroy_data_then_repair);
    ("disrupt_destroy_data_then_rebuild", Method m_disrupt_destroy_data_then_rebuild);
    ("call_random_disrupt_method", Method m_call_random_disrupt_method);
    ("repair_nodetool_repair", Method m_repair_nodetool_repair);
    ("repair_nodetool_rebuild", Method m_repair_nodetool_rebuild);
    ("cluster", Attribute);
    ("target_node", Attribute);
    ("log", Attribute);
    ("termination_event", Attribute);
    ("__class__", Inherited true);
    ("__delattr__", Inherited true);
    ("__dict__", Inherited false);
    ("__doc__", Inherited false);
    ("__format__", Inherited true);
    ("__getattribute__", Inherited true);
    ("__hash__", Inherited true);
    ("__module__", Inherited false);
    ("__new__", Inherited true);
    ("__reduce__", Inherited true);
    ("__reduce_ex__", Inherited true);
    ("__repr__", Inherited true);
    ("__setattr__", Inherited true);
    ("__sizeof__", Inherited true);
    ("__subclasshook__", Inherited true);
    ("__weakref__", Inherited false) ].

Fixpoint insert_by_name (x : string * Member) (l : list (string * Member))
  : list (string * Member) :=
  match l with
  | [] => [x]
  | y :: l' =>
      if String.leb (fst x) (fst y) then x :: l else y :: insert_by_name x l'
  end.

(** [inspect.getmembers(self)]: the (name, value) pairs sorted by name. *)
Definition getmembers : list (string * Member) :=
  fold_right insert_by_name [] members.

(** [attr[0].startswith('disrupt_')]. *)
Definition startswith (pre s : string) : bool := String.prefix pre s.

(** The list comprehension of [call_random_disrupt_method]. *)
Definition disrupt_methods : list Member :=
  map snd
      (filter (fun attr => startswith "disrupt_" (fst attr) && callable (snd attr))
              getmembers).

(** Calling a bound method without arguments.  The comprehension above
    only yields the six [disrupt_*] methods; for every other value the
    call would be a TypeError, kept here so the function is total. *)
Definition call_member (fuel : nat) (x : Member) : M unit :=
  match x with
  | Method m_disrupt_nodetool_drain => disrupt_nodetool_drain
  | Method m_disrupt_nodetool_decommission => disrupt_nodetool_decommission fuel
  | Method m_disrupt_stop_start => disrupt_stop_start
  | Method m_disrupt_kill_scylla_daemon => disrupt_kill_scylla_daemon
  | Method m_disrupt_destroy_data_then_repair => disrupt_destroy_data_then_repair
  | Method m_disrupt_destroy_data_then_rebuild => disrupt_destroy_data_then_rebuild
  | _ => raise (OtherError "TypeError" true)
  end.

Definition log_exc_info (lvl : Level) (fmt : string) (args : list LogArg) (e : exc) : M unit :=
  modify (emit (EvLog lvl fmt args (Some e))).

Definition call_random_disrupt_method (fuel : nat) : M unit :=
  disrupt_method <- random_choice disrupt_methods ;;
  try_except_Exception
    (call_member fuel disrupt_method)
    (fun e => log_exc_info ERROR "Disrupt method %s failed" [AMember disrupt_method] e).

(** ** The decorator and the subclasses *)

(** [log_time_elapsed(method)] applied to the [disrupt] of class [c]. *)
Definition log_time_elapsed (c : Monkey) (method : M unit) : M unit :=
  log DEBUG "%s Start" [AFunction c] ;;
  start_time <- time_time ;;
  result <- try_finally method
              (now <- time_time ;;
               let elapsed_time := (now - start_time)%Z in
               log DEBUG "%s duration -> %s s" [AFunction c; ANum elapsed_time]) ;;
  ret result.

(** The one catalog entry a fixed strategy's [disrupt] calls. *)
Definition fixed_action (c : Monkey) : option Member :=
  match c with
  | StopStartMonkey => Some (Method m_disrupt_stop_start)
  | DrainerMonkey => Some (Method m_disrupt_nodetool_drain)
  | CorruptThenRepairMonkey => Some (Method m_disrupt_destroy_data_then_repair)
  | CorruptThenRebuildMonkey => Some (Method m_disrupt_destroy_data_then_rebuild)
  | DecommissionMonkey => Some (Method m_disrupt_nodetool_decommission)
  | Nemesis | ChaosMonkey => None
  end.

(** [self.disrupt()] on an object of class [c]. *)
Definition disrupt (fuel : nat) (c : Monkey) : M unit :=
  match c with
  | Nemesis => raise (NotImplementedError "Derived classes must implement disrupt()")
  | StopStartMonkey => log_time_elapsed c disrupt_stop_start
  | DrainerMonkey => log_time_elapsed c disrupt_nodetool_drain
  | CorruptThenRepairMonkey => log_time_elapsed c disrupt_destroy_data_then_repair
  | CorruptThenRebuildMonkey => log_time_elapsed c disrupt_destroy_data_then_rebuild
  | DecommissionMonkey => log_time_elapsed c (disrupt_nodetool_decommission fuel)
  | ChaosMonkey => log_time_elapsed c (call_random_disrupt_method fuel)
  end.

(** ** The scheduling loop *)

(** The checkpoint of a cycle: [true] when the loop is left by [break]. *)
Definition check_termination (termination_event_arg : option EventId) : M bool :=
  match termination_event_arg with
  | Some _ =>
      ev <- get termination_event ;;
      e <- deref ev ;;
      b <- isSet e ;;
      if b then modify (with_termination_event None) ;; ret true
      else ret false
  | None => ret false
  end.

(** [while True:] of [run], [cycles] iterations at most, each with the
    budget [fuel] for the loop inside the decommission; [interval] is
    already in seconds. *)
Fixpoint run_loop (cycles fuel : nat) (c : Monkey) (interval : nat)
                  (termination_event_arg : option EventId) : M unit :=
  match cycles with
  | 0 => out_of_fuel
  | S cycles' =>
      time_sleep interval ;;
      disrupt fuel c ;;
      stop <- check_termination termination_event_arg ;;
      if stop then ret tt
      else set_target_node ;; run_loop cycles' fuel c interval termination_event_arg
  end.

(** [run(self, interval=30, termination_event=None)]. *)
Definition run (cycles fuel : nat) (c : Monkey) (interval : nat)
               (termination_event_arg : option EventId) : M unit :=
  let interval := interval * 60 in
  run_loop cycles fuel c interval termination_event_arg.

End WithEnv.

Arguments random_choice env {A} seq w.

(** ** Vocabulary of the properties *)

(** [filter(lambda node: not node.is_seed, cluster.nodes)], the list
    [set_target_node] draws from. *)
Definition non_seed_nodes (w : World) : list Node :=
  filter (fun node => negb (is_seed node)) (cluster_nodes w).

(** The node the [k]-th draw of the generator picks out of the
    cluster's nodes. *)
Definition draw (env : Env) (w : World) (k : nat) : option Node :=
  nth_error (cluster_nodes w) (env_random env k mod length (cluster_nodes w)).

(** The event is a poll of a termination event. *)
Definition is_poll (ev : Event) : bool :=
  match ev with
  | EvIsSet _ _ => true
  | _ => false
  end.

(** The event is a poll that saw the termination event set. *)
Definition is_set_poll (ev : Event) : bool :=
  match ev with
  | EvIsSet _ b => b
  | _ => false
  end.

(** No event of the list is a poll that saw the event set. *)
Definition no_set_poll (l : list Event) : bool :=
  forallb (fun ev => negb (is_set_poll ev)) l.

(** What was added to the history between [w] and [w']. *)
Definition events_since (w w' : World) : list Event :=
  skipn (length (trace w)) (trace w').

(** [w'] comes after [w] without any poll in between and with the same
    [self.termination_event]. *)
Definition quiet_step (w w' : World) : Prop :=
  termination_event w' = termination_event w /\
  exists new, trace w' = trace w ++ new /\ forallb (fun ev => negb (is_poll ev)) new = true.

(** A computation that neither polls nor touches [self.termination_event]. *)
Definition quiet {A} (m : M A) : Prop :=
  forall w r w', m w = (r, w') -> quiet_step w w'.

(** The node list holds no node twice, and every node in it was created
    before the next one to come. *)
Definition well_formed (w : World) : Prop :=
  NoDup (cluster_nodes w) /\
  forall x, In x (cluster_nodes w) -> node_id x < next_node_id w.

(** The world in which the method wrapped by [log_time_elapsed] starts,
    when the wrapper was entered in [w]: after the "Start" record and
    the reading of the clock. *)
Definition started (env : Env) (c : Monkey) (w : World) : World :=
  let w1 := emit (EvLog DEBUG "%s Start" [AFunction c] None) w in
  emit (EvTime (env_clock env (trace w1))) w1.

(** The world the wrapper leaves when the method ended in [w1]: after
    the second reading of the clock and the "duration" record. *)
Definition finished (env : Env) (c : Monkey) (w w1 : World) : World :=
  let start_time :=
    env_clock env (trace w ++ [EvLog DEBUG "%s Start" [AFunction c] None]) in
  let now := env_clock env (trace w1) in
  emit (EvLog DEBUG "%s duration -> %s s"
              [AFunction c; ANum (now - start_time)%Z] None)
       (emit (EvTime now) w1).

Definition MethodName_eq_dec (a b : MethodName) : {a = b} + {a <> b}.
Proof. decide equality. Defined.

Definition Member_eq_dec (a b : Member) : {a = b} + {a <> b}.
Proof. decide equality; auto using MethodName_eq_dec, bool_dec. Defined.

(** The index [i] into the candidates picks the member [x]. *)
Definition selects (i : nat) (x : Member) : bool :=
  match nth_error disrupt_methods i with
  | Some y => if Member_eq_dec x y then true else false
  | None => false
  end.

(** The names of the six user-facing disruptions. *)
Definition disruption_names : list string :=
  [ "disrupt_nodetool_drain"; "disrupt_stop_start"; "disrupt_kill_scylla_daemon";
    "disrupt_nodetool_decommission"; "disrupt_destroy_data_then_repair";
    "disrupt_destroy_data_then_rebuild" ].

(** The event is a wait of the scheduling loop. *)
Definition is_sleep (ev : Event) : bool :=
  match ev with
  | EvSleep _ => true
  | _ => false
  end.

(** The event belongs to a disruption: it is neither a wait of the
    scheduling loop nor a poll of the termination event. *)
Definition is_action_event (ev : Event) : bool :=
  match ev with
  | EvSleep _ | EvIsSet _ _ => false
  | _ => true
  end.

(** [w'] is [w] with events of a disruption added to its history and
    nothing else changed. *)
Definition history_only (w w' : World) : Prop :=
  exists new,
    w' = mkWorld (cluster_nodes w) (target_node w) (termination_event w)
                 (trace w ++ new) (rng_pos w) (next_node_id w) /\
    forallb is_action_event new = true.

(** A computation that only adds events of a disruption to the history. *)
Definition only_history {A} (m : M A) : Prop :=
  forall w r w', m w = (r, w') -> history_only w w'.

(** What every disruption keeps, whatever it does: the target, the
    termination event and the well-formedness of the node list; and it
    adds only events of a disruption to the history. *)
Definition keeps (w w' : World) : Prop :=
  target_node w' = target_node w /\
  termination_event w' = termination_event w /\
  (well_formed w -> well_formed w') /\
  exists new, trace w' = trace w ++ new /\ forallb is_action_event new = true.

(** The target is a node of the cluster that is not a seed. *)
Definition valid_target (w : World) : Prop :=
  exists t, target_node w = Some t /\ In t (cluster_nodes w) /\ is_seed t = false.

(** How many waits, and how many polls, a history holds. *)
Definition sleeps (l : list Event) : nat := length (filter is_sleep l).
Definition polls (l : list Event) : nat := length (filter is_poll l).

(** The way a statement ends when it is a call that ended as [o]. *)
Definition outcome_result (o : Outcome unit) : Result unit :=
  match o with
  | Returns _ => Ok tt
  | Raises e => Raise e
  | NeverReturns => Blocked
  end.

(** The nodes on which the command [cmd] was run, in the order of the
    history. *)
Fixpoint ran_on (cmd : string) (l : list Event) : list Node :=
  match l with
  | [] => []
  | EvRun n c _ _ :: l' => if String.eqb c cmd then n :: ran_on cmd l' else ran_on cmd l'
  | _ :: l' => ran_on cmd l'
  end.

(** ** Concrete inputs *)

Definition seed_node : Node := mkNode 0 true "10.0.0.1".
Definition node1 : Node := mkNode 1 false "10.0.0.2".
Definition node2 : Node := mkNode 2 false "10.0.0.3".

(** A calm environment: commands exit with 0, calls return, the
    membership query lists only the seed, the termination event is set. *)
Definition env0 : Env :=
  mkEnv (fun k => k)
        (fun h => Z.of_nat (length h))
        (fun _ _ _ => (0%Z, 1%Z))
        (fun _ _ => Returns tt)
        (fun _ _ => Returns [mkNodeInfo "seed" "10.0.0.1"])
        (fun _ _ => (false, "10.0.0.9"))
        (fun _ _ => true)
        (fun name => ("/data/" ++ name)%string).

(** As [env0], but the membership query still lists [node1]. *)
Definition env_still_member : Env :=
  mkEnv (env_random env0) (env_clock env0) (env_exec env0) (env_call env0)
        (fun _ _ => Returns [mkNodeInfo "seed" "10.0.0.1"; mkNodeInfo "node1" "10.0.0.2"])
        (env_new_node env0) (env_is_set env0) (env_data_path env0).

(** As [env0], but every command exits with 1 and the database never
    comes up again. *)
Definition env_failing : Env :=
  mkEnv (env_random env0) (env_clock env0)
        (fun _ _ _ => (1%Z, 1%Z))
        (fun _ c => match c with
                    | WaitDbUp _ => Raises (OtherError "TimeoutError" true)
                    | _ => Returns tt
                    end)
        (env_node_info env0) (env_new_node env0) (env_is_set env0) (env_data_path env0).

(** One seed and two other nodes, [node1] being the target. *)
Definition world0 : World :=
  mkWorld [seed_node; node1; node2] (Some node1) (Some 7) [] 0 3.

(** As [world0], with the generator about to draw the target. *)
Definition world_resample : World :=
  mkWorld [seed_node; node1; node2] (Some node1) (Some 7) [] 1 3.

(** As [env0], but [destroy] of a node raises. *)
Definition env_destroy_fails : Env :=
  mkEnv (env_random env0) (env_clock env0) (env_exec env0)
        (fun _ c => match c with
                    | Destroy _ => Raises (OtherError "CloudError" true)
                    | _ => Returns tt
                    end)
        (env_node_info env0) (env_new_node env0) (env_is_set env0) (env_data_path env0).

(** As [env0], but every call on a node or on the cluster is
    interrupted from the keyboard. *)
Definition env_interrupted : Env :=
  mkEnv (env_random env0) (env_clock env0) (env_exec env0)
        (fun _ _ => Raises (OtherError "KeyboardInterrupt" false))
        (env_node_info env0) (env_new_node env0) (env_is_set env0) (env_data_path env0).

(** As [env0], but the termination event is never set. *)
Definition env_never_set : Env :=
  mkEnv (env_random env0) (env_clock env0) (env_exec env0) (env_call env0)
        (env_node_info env0) (env_new_node env0) (fun _ _ => false) (env_data_path env0).

(** A cluster of the target alone. *)
Definition world_single : World :=
  mkWorld [node1] (Some node1) (Some 7) [] 0 2.

(** A target that is no longer in the node list. *)
Definition world_stale : World :=
  mkWorld [seed_node; node2] (Some node1) (Some 7) [] 0 3.

(** A cluster of seeds only, before [__init__] has set a target. *)
Definition world_seeds : World :=
  mkWorld [seed_node] None None [] 0 1.

(** * Properties *)

(** ** Running the monad *)

(** Projections of an updated world. *)
Ltac world_simpl :=
  cbn [trace emit with_nodes with_target with_termination_event with_rng_pos
       with_next_node_id cluster_nodes target_node termination_event rng_pos
       next_node_id].

Ltac world_simpl_in H :=
  cbn [trace emit with_nodes with_target with_termination_event with_rng_pos
       with_next_node_id cluster_nodes target_node termination_event rng_pos
       next_node_id] in H.

(** Brings a history to the form [trace w ++ [e1; ...; ek]]. *)
Ltac history := world_simpl; rewrite <- ?app_assoc; cbn [app]; reflexivity.

(** Every way [bind m f] can end, by the way [m] ended. *)
Lemma bind_inv {A B} (m : M A) (f : A -> M B) w r w' :
  bind m f w = (r, w') ->
  (exists a w1, m w = (Ok a, w1) /\ f a w1 = (r, w')) \/
  (exists e, m w = (Raise e, w') /\ r = Raise e) \/
  (m w = (Blocked, w') /\ r = Blocked) \/
  (m w = (OutOfFuel, w') /\ r = OutOfFuel).
Proof.
  unfold bind. destruct (m w) as [[a | e | | ] w1]; intros H.
  - left. eauto.
  - right. left. inversion H; subst. eauto.
  - right. right. left. inversion H; subst. auto.
  - right. right. right. inversion H; subst. auto.
Qed.

(** ** List facts used below *)

Lemma str_in_In (x : string) (l : list string) : str_in x l = true <-> In x l.
Proof.
  unfold str_in. rewrite existsb_exists. split.
  - intros [y [Hy He]]. apply String.eqb_eq in He. subst. exact Hy.
  - intros H. exists x. split; [exact H | apply String.eqb_refl].
Qed.

Lemma node_eqb_eq (a b : Node) : node_eqb a b = true <-> a = b.
Proof.
  unfold node_eqb. destruct (Node_eq_dec a b); split; congruence.
Qed.

Lemma node_eqb_refl (a : Node) : node_eqb a a = true.
Proof. apply node_eqb_eq. reflexivity. Qed.

Lemma random_choice_inv (env : Env) {A} (seq : list A) w r w' :
  random_choice env seq w = (r, w') ->
  (seq = [] /\ r = Raise IndexError /\ w' = w) \/
  (exists x, r = Ok x /\ w' = with_rng_pos (S (rng_pos w)) w /\
             nth_error seq (env_random env (rng_pos w) mod length seq) = Some x).
Proof.
  unfold random_choice. destruct seq as [| a l].
  - intros H. inversion H. left. auto.
  - set (s := a :: l).
    assert (Hlt : env_random env (rng_pos w) mod length s < length s)
      by (apply Nat.mod_upper_bound; discriminate).
    destruct (nth_error s (env_random env (rng_pos w) mod length s)) as [x |] eqn:E.
    + intros H. inversion H. right. exists x. auto.
    + apply nth_error_None in E. lia.
Qed.

(** ** The target selector *)

Section TargetSelector.

Variable env : Env.

Lemma set_target_node_unfold w :
  set_target_node env w =
  match random_choice env (non_seed_nodes w) w with
  | (Ok chosen, w1) =>
      (Ok tt, emit (EvLog INFO "Current Target: %s" [ANode (Some chosen)] None)
                   (with_target (Some chosen) w1))
  | (Raise e, w1) => (Raise e, w1)
  | (Blocked, w1) => (Blocked, w1)
  | (OutOfFuel, w1) => (OutOfFuel, w1)
  end.
Proof.
  unfold set_target_node, non_seed_nodes, bind, get.
  destruct (random_choice env _ w) as [[chosen | e | | ] w1]; reflexivity.
Qed.

(** C5. Whenever the cluster has a node that is not a seed, the
    selector ends normally and the target it sets is a node of the
    cluster whose seed flag is false; the node list is left as it was. *)
Theorem set_target_node_never_seed (w : World) :
  (exists n, In n (cluster_nodes w) /\ is_seed n = false) ->
  exists t w',
    set_target_node env w = (Ok tt, w') /\
    target_node w' = Some t /\
    is_seed t = false /\
    In t (cluster_nodes w) /\
    cluster_nodes w' = cluster_nodes w.
Proof.
  intros [n [Hin Hseed]].
  rewrite set_target_node_unfold.
  destruct (random_choice env (non_seed_nodes w) w) as [r w1] eqn:E.
  apply random_choice_inv in E.
  destruct E as [[Hnil _] | [x [Hr [Hw Hnth]]]].
  - exfalso. assert (Hn : In n (non_seed_nodes w)).
    { unfold non_seed_nodes. apply filter_In. rewrite Hseed. auto. }
    rewrite Hnil in Hn. exact Hn.
  - subst r w1. apply nth_error_In in Hnth.
    unfold non_seed_nodes in Hnth. apply filter_In in Hnth.
    destruct Hnth as [Hx Hs]. apply negb_true_iff in Hs.
    exists x. eexists. split; [reflexivity |]. simpl. auto.
Qed.

(** C4, as the code has it.  When every node of the cluster is a seed,
    the selector ends with the IndexError of [random.choice] on the empty
    list: no target is set and nothing is logged. *)
Theorem set_target_node_all_seeds (w : World) :
  (forall n, In n (cluster_nodes w) -> is_seed n = true) ->
  set_target_node env w = (Raise IndexError, w).
Proof.
  intros H. rewrite set_target_node_unfold.
  assert (Hnil : non_seed_nodes w = []).
  { unfold non_seed_nodes. destruct (filter _ _) as [| x l] eqn:E; [reflexivity |].
    assert (Hx : In x (x :: l)) by (left; reflexivity).
    rewrite <- E in Hx. apply filter_In in Hx. destruct Hx as [Hx Hs].
    rewrite (H x Hx) in Hs. discriminate. }
  rewrite Hnil. reflexivity.
Qed.

End TargetSelector.

Lemma set_target_node_never_seed_witness :
  exists t w',
    set_target_node env0 world0 = (Ok tt, w') /\
    target_node w' = Some t /\
    is_seed t = false /\
    In t (cluster_nodes world0) /\
    cluster_nodes w' = cluster_nodes world0.
Proof.
  apply (set_target_node_never_seed env0 world0).
  exists node1. split; [simpl; auto | reflexivity].
Defined.

Lemma set_target_node_all_seeds_witness :
  set_target_node env0 world_seeds = (Raise IndexError, world_seeds).
Proof.
  apply (set_target_node_all_seeds env0 world_seeds).
  simpl. intros n [H | []]. subst n. reflexivity.
Defined.

(** On a cluster of seeds the selector does not end with an error named
    NoEligibleTargetError. *)
Lemma all_seeds_error_is_not_named :
  (forall n, In n (cluster_nodes world_seeds) -> is_seed n = true) /\
  ~ (exists e w', set_target_node env0 world_seeds = (Raise e, w') /\
                  exc_class e = "NoEligibleTargetError").
Proof.
  split.
  - simpl. intros n [H | []]. subst n. reflexivity.
  - intros [e [w' [H Hc]]]. vm_compute in H. inversion H; subst e.
    discriminate Hc.
Qed.

(** ** Kill-daemon *)

(** C8. With a target [n] set, the kill-daemon action logs, sends
    [sudo pkill -9 scylla] with [ignore_status=True], and whatever the
    exit status of that command it goes on to [wait_db_down]; it calls
    [wait_db_up] exactly when [wait_db_down] has returned, and otherwise
    ends the way [wait_db_down] ended with that call as its last event. *)
Theorem disrupt_kill_scylla_daemon_sequence (env : Env) (w : World) (n : Node) :
  target_node w = Some n ->
  let res := mkCmdResult "sudo pkill -9 scylla"
                         (snd (env_exec env (trace w ++ [EvLog INFO "Kill all scylla processes in %s" [ANode (Some n)] None])
                                        n "sudo pkill -9 scylla"))
                         (fst (env_exec env (trace w ++ [EvLog INFO "Kill all scylla processes in %s" [ANode (Some n)] None])
                                        n "sudo pkill -9 scylla")) in
  let h1 := trace w ++ [EvLog INFO "Kill all scylla processes in %s" [ANode (Some n)] None;
                        EvRun n "sudo pkill -9 scylla" true res] in
  let down := env_call env h1 (WaitDbDown n) in
  let h2 := h1 ++ [EvCall (WaitDbDown n) down] in
  let up := env_call env h2 (WaitDbUp n) in
  let r := fst (disrupt_kill_scylla_daemon env w) in
  let h := trace (snd (disrupt_kill_scylla_daemon env w)) in
  match down with
  | Returns _ =>
      h = h2 ++ [EvCall (WaitDbUp n) up] /\
      r = match up with
          | Returns _ => Ok tt
          | Raises e => Raise e
          | NeverReturns => Blocked
          end
  | Raises e => h = h2 /\ r = Raise e
  | NeverReturns => h = h2 /\ r = Blocked
  end.
Proof.
  intros Ht. cbv zeta.
  unfold disrupt_kill_scylla_daemon, bind, get, log, modify, deref, ret,
    remoter_run, call.
  rewrite Ht. cbn [emit trace cluster_nodes target_node termination_event rng_pos next_node_id].
  destruct (env_exec env _ n "sudo pkill -9 scylla") as [status dur] eqn:Ex.
  rewrite orb_true_r.
  cbn [emit trace cluster_nodes target_node termination_event rng_pos next_node_id fst snd].
  rewrite <- !app_assoc. cbn [app].
  destruct (env_call env _ (WaitDbDown n)) as [[] | e |] eqn:Ed;
    cbn [emit trace fst snd]; rewrite <- ?app_assoc; cbn [app]; auto.
  destruct (env_call env _ (WaitDbUp n)) as [[] | e |] eqn:Eu;
    cbn [emit trace fst snd]; rewrite <- ?app_assoc; cbn [app]; auto.
Qed.

Lemma disrupt_kill_scylla_daemon_sequence_witness :
  trace (snd (disrupt_kill_scylla_daemon env_failing world0)) =
    [EvLog INFO "Kill all scylla processes in %s" [ANode (Some node1)] None;
     EvRun node1 "sudo pkill -9 scylla" true (mkCmdResult "sudo pkill -9 scylla" 1 1);
     EvCall (WaitDbDown node1) (Returns tt);
     EvCall (WaitDbUp node1) (Raises (OtherError "TimeoutError" true))] /\
  fst (disrupt_kill_scylla_daemon env_failing world0) = Raise (OtherError "TimeoutError" true).
Proof.
  exact (disrupt_kill_scylla_daemon_sequence env_failing world0 node1 eq_refl).
Defined.

(** ** The verification node of the decommission *)

Section VerificationNode.

Variable env : Env.

Lemma with_rng_pos_id w : with_rng_pos (rng_pos w) w = w.
Proof. destruct w. reflexivity. Qed.

Lemma draw_Some w k :
  cluster_nodes w <> [] -> exists v, draw env w k = Some v.
Proof.
  intros Hne. unfold draw.
  destruct (nth_error (cluster_nodes w) _) as [v |] eqn:E; [eauto |].
  apply nth_error_None in E.
  assert (length (cluster_nodes w) <> 0)
    by (destruct (cluster_nodes w); [congruence | discriminate]).
  pose proof (Nat.mod_upper_bound (env_random env k) (length (cluster_nodes w))).
  lia.
Qed.

Lemma random_choice_nodes w0 p :
  cluster_nodes w0 <> [] ->
  exists v, draw env w0 p = Some v /\
            random_choice env (cluster_nodes w0) (with_rng_pos p w0)
            = (Ok v, with_rng_pos (S p) w0).
Proof.
  intros Hne. destruct (draw_Some w0 p Hne) as [v Hv]. exists v. split; [exact Hv |].
  unfold random_choice. destruct (cluster_nodes w0) as [| a l] eqn:E; [congruence |].
  unfold draw in Hv. rewrite E in Hv. cbn [rng_pos with_rng_pos]. rewrite Hv.
  reflexivity.
Qed.

Lemma resample_verification_node_unfold fuel v w :
  resample_verification_node env fuel v w =
  if node_is v (target_node w) then
    match fuel with
    | 0 => (OutOfFuel, w)
    | S fuel' =>
        match random_choice env (cluster_nodes w) w with
        | (Ok v', w1) => resample_verification_node env fuel' v' w1
        | (Raise e, w1) => (Raise e, w1)
        | (Blocked, w1) => (Blocked, w1)
        | (OutOfFuel, w1) => (OutOfFuel, w1)
        end
    end
  else (Ok v, w).
Proof.
  destruct fuel; cbn [resample_verification_node]; unfold bind at 1, get at 1;
    destruct (node_is v (target_node w)); reflexivity.
Qed.

(** What the loop does from position [p] of the generator on, holding
    the sample [v]. *)
Lemma resample_verification_node_spec t w0 :
  target_node w0 = Some t ->
  cluster_nodes w0 <> [] ->
  forall fuel v p r w',
    resample_verification_node env fuel v (with_rng_pos p w0) = (r, w') ->
    exists q, w' = with_rng_pos q w0 /\ p <= q /\
      (forall k, p <= k < q -> k + 1 < q -> draw env w0 k = Some t) /\
      match r with
      | Ok v' => v' <> t /\
                 (q = p -> v' = v) /\
                 (p < q -> v = t /\ draw env w0 (q - 1) = Some v')
      | Raise _ => False
      | Blocked => False
      | OutOfFuel => q = p + fuel /\ v = t /\
                     forall k, p <= k < q -> draw env w0 k = Some t
      end.
Proof.
  intros Ht Hne. induction fuel as [| fuel IH]; intros v p r w' H;
    rewrite resample_verification_node_unfold in H;
    change (target_node (with_rng_pos p w0)) with (target_node w0) in H;
    change (cluster_nodes (with_rng_pos p w0)) with (cluster_nodes w0) in H;
    rewrite Ht in H; cbn [node_is] in H; destruct (node_eqb v t) eqn:E.
  - inversion H; subst. exists p. rewrite Nat.add_0_r.
    apply node_eqb_eq in E. repeat split; auto; intros; lia.
  - inversion H; subst. exists p.
    assert (v <> t) by (intros ->; rewrite node_eqb_refl in E; discriminate).
    repeat split; auto; intros; lia.
  - apply node_eqb_eq in E. subst v.
    destruct (random_choice_nodes w0 p Hne) as [v1 [Hd Hc]].
    rewrite Hc in H.
    apply IH in H. destruct H as [q [Hw [Hle [Hbefore Hr]]]].
    exists q. split; [exact Hw |]. split; [lia |]. split.
    + intros k Hk Hk1. destruct (Nat.eq_dec k p) as [-> | Hkp].
      * destruct r as [v' | e | |].
        -- destruct Hr as [Hv' [Hq0 Hq1]].
           assert (Hlt : S p < q) by lia. destruct (Hq1 Hlt) as [Hv1 _].
           subst v1. exact Hd.
        -- contradiction.
        -- contradiction.
        -- destruct Hr as [_ [Hv1 _]]. subst v1. exact Hd.
      * apply Hbefore; lia.
    + destruct r as [v' | e | |]; auto.
      * destruct Hr as [Hv' [Hq0 Hq1]]. split; [exact Hv' |]. split.
        -- intros ->. lia.
        -- intros _. split; [reflexivity |].
           destruct (Nat.eq_dec q (S p)) as [-> | Hq].
           ++ rewrite (Hq0 eq_refl). replace (S p - 1) with p by lia. exact Hd.
           ++ apply Hq1. lia.
      * destruct Hr as [Hq [Hv1 Hall]]. split; [lia |]. split; [reflexivity |].
        intros k Hk. destruct (Nat.eq_dec k p) as [-> | Hkp].
        -- subst v1. exact Hd.
        -- apply Hall. lia.
  - inversion H; subst. exists p.
    assert (v <> t) by (intros ->; rewrite node_eqb_refl in E; discriminate).
    repeat split; auto; intros; lia.
Qed.

(** The loop comes to an end once a draw within the budget differs
    from the target. *)
Lemma resample_verification_node_ends t w0 :
  target_node w0 = Some t ->
  cluster_nodes w0 <> [] ->
  forall fuel v p,
    (v <> t \/ exists k v', k < fuel /\ draw env w0 (p + k) = Some v' /\ v' <> t) ->
    exists v' w', resample_verification_node env fuel v (with_rng_pos p w0) = (Ok v', w').
Proof.
  intros Ht Hne. induction fuel as [| fuel IH]; intros v p Hex;
    rewrite resample_verification_node_unfold;
    change (target_node (with_rng_pos p w0)) with (target_node w0);
    change (cluster_nodes (with_rng_pos p w0)) with (cluster_nodes w0);
    rewrite Ht; cbn [node_is]; destruct (node_eqb v t) eqn:E;
    try (eexists _, _; reflexivity);
    apply node_eqb_eq in E;
    (destruct Hex as [Hv | [k [v' [Hk [Hd Hv']]]]]; [contradiction |]).
  - lia.
  - destruct (random_choice_nodes w0 p Hne) as [v1 [Hd1 Hc]].
    rewrite Hc. apply IH.
    destruct k as [| k].
    + left. rewrite Nat.add_0_r in Hd. congruence.
    + right. exists k, v'. split; [lia |]. split; [| exact Hv'].
      replace (S p + k) with (p + S k) by lia. exact Hd.
Qed.

(** C9. In a cluster of at least two nodes with the target [t] set:
    whenever the choice of the verification node ends, it ends normally
    with a node of the cluster other than [t], which is the first draw
    that differs from [t] (every earlier draw was [t] and was thrown
    away); and it does end as soon as one of the first [fuel + 1] draws
    differs from [t]. *)
Theorem verification_node_never_target (fuel : nat) (w : World) (t : Node) :
  2 <= length (cluster_nodes w) ->
  target_node w = Some t ->
  (forall r w', choose_verification_node env fuel w = (r, w') ->
     match r with
     | Ok v =>
         v <> t /\ In v (cluster_nodes w) /\
         rng_pos w < rng_pos w' /\
         draw env w (rng_pos w' - 1) = Some v /\
         (forall k, rng_pos w <= k < rng_pos w' - 1 -> draw env w k = Some t) /\
         w' = with_rng_pos (rng_pos w') w
     | Raise _ => False
     | Blocked => False
     | OutOfFuel =>
         forall k, rng_pos w <= k <= rng_pos w + fuel -> draw env w k = Some t
     end) /\
  (forall k v, k <= fuel -> draw env w (rng_pos w + k) = Some v -> v <> t ->
     exists v' w', choose_verification_node env fuel w = (Ok v', w')).
Proof.
  intros Hlen Ht.
  assert (Hne : cluster_nodes w <> []).
  { destruct (cluster_nodes w); [simpl in Hlen; lia | discriminate]. }
  destruct (random_choice_nodes w (rng_pos w) Hne) as [v0 [Hd0 Hc0]].
  rewrite with_rng_pos_id in Hc0.
  assert (Hchoose : choose_verification_node env fuel w =
                    resample_verification_node env fuel v0 (with_rng_pos (S (rng_pos w)) w)).
  { unfold choose_verification_node. unfold bind at 1, get at 1.
    unfold bind at 1. rewrite Hc0. reflexivity. }
  rewrite Hchoose. split.
  - intros r w' H.
    apply (resample_verification_node_spec t w Ht Hne) in H.
    destruct H as [q [Hw [Hle [Hbefore Hr]]]]. subst w'. cbn [rng_pos with_rng_pos].
    destruct r as [v | e | |]; auto.
    + destruct Hr as [Hv [Hq0 Hq1]].
      assert (Hlast : draw env w (q - 1) = Some v).
      { destruct (Nat.eq_dec q (S (rng_pos w))) as [-> | Hq].
        - rewrite (Hq0 eq_refl). replace (S (rng_pos w) - 1) with (rng_pos w) by lia.
          exact Hd0.
        - apply Hq1. lia. }
      split; [exact Hv |]. split; [exact (nth_error_In _ _ Hlast) |].
      split; [lia |]. split; [exact Hlast |]. split; [| reflexivity].
      intros k Hk. destruct (Nat.eq_dec k (rng_pos w)) as [-> | Hkp].
      * assert (Hlt : S (rng_pos w) < q) by lia. destruct (Hq1 Hlt) as [Hv0 _].
        subst v0. exact Hd0.
      * apply Hbefore; lia.
    + destruct Hr as [Hq [Hv0 Hall]]. intros k Hk.
      destruct (Nat.eq_dec k (rng_pos w)) as [-> | Hkp].
      * subst v0. exact Hd0.
      * apply Hall. lia.
  - intros k v Hk Hd Hv.
    apply (resample_verification_node_ends t w Ht Hne).
    destruct k as [| k].
    + left. rewrite Nat.add_0_r in Hd. congruence.
    + right. exists k, v. split; [lia |]. split; [| exact Hv].
      replace (S (rng_pos w) + k) with (rng_pos w + S k) by lia. exact Hd.
Qed.

End VerificationNode.

Lemma verification_node_never_target_witness :
  2 <= length (cluster_nodes world_resample) /\
  target_node world_resample = Some node1 /\
  (exists w', choose_verification_node env0 3 world_resample = (Ok node2, w')) /\
  forall v w', choose_verification_node env0 3 world_resample = (Ok v, w') -> v <> node1.
Proof.
  split; [simpl; lia |]. split; [reflexivity |].
  split; [eexists; reflexivity |].
  intros v w' H.
  destruct (verification_node_never_target env0 3 world_resample node1) as [Hs _];
    [simpl; lia | reflexivity |].
  exact (proj1 (Hs _ _ H)).
Defined.

(** ** Computations that do not poll *)

Lemma quiet_step_refl w : quiet_step w w.
Proof. split; [reflexivity |]. exists []. rewrite app_nil_r. auto. Qed.

Lemma quiet_step_trans w1 w2 w3 :
  quiet_step w1 w2 -> quiet_step w2 w3 -> quiet_step w1 w3.
Proof.
  intros [Ht1 [n1 [Hn1 Hf1]]] [Ht2 [n2 [Hn2 Hf2]]]. split; [congruence |].
  exists (n1 ++ n2). rewrite Hn2, Hn1, app_assoc. split; [reflexivity |].
  rewrite forallb_app, Hf1, Hf2. reflexivity.
Qed.

Lemma quiet_step_emit ev w : is_poll ev = false -> quiet_step w (emit ev w).
Proof.
  intros H. split; [reflexivity |]. exists [ev]. split; [reflexivity |].
  simpl. rewrite H. reflexivity.
Qed.

Lemma quiet_ret {A} (a : A) : quiet (ret a).
Proof. intros w r w' H. inversion H. apply quiet_step_refl. Qed.

Lemma quiet_raise {A} (e : exc) : quiet (@raise A e).
Proof. intros w r w' H. inversion H. apply quiet_step_refl. Qed.

Lemma quiet_out_of_fuel {A} : quiet (@out_of_fuel A).
Proof. intros w r w' H. inversion H. apply quiet_step_refl. Qed.

Lemma quiet_get {A} (proj : World -> A) : quiet (get proj).
Proof. intros w r w' H. inversion H. apply quiet_step_refl. Qed.

Lemma quiet_modify (f : World -> World) :
  (forall w, quiet_step w (f w)) -> quiet (modify f).
Proof. intros Hf w r w' H. inversion H. apply Hf. Qed.

Lemma quiet_bind {A B} (m : M A) (f : A -> M B) :
  quiet m -> (forall a, quiet (f a)) -> quiet (bind m f).
Proof.
  intros Hm Hf w r w' H. apply bind_inv in H.
  destruct H as [[a [w1 [H1 H2]]] | [[e [H1 _]] | [[H1 _] | [H1 _]]]];
    try (eapply Hm; eassumption).
  eapply quiet_step_trans; [eapply Hm | eapply Hf]; eassumption.
Qed.

Lemma quiet_try_except_Exception {A} (body : M A) (handler : exc -> M A) :
  quiet body -> (forall e, quiet (handler e)) -> quiet (try_except_Exception body handler).
Proof.
  intros Hb Hh w r w' H. unfold try_except_Exception in H.
  destruct (body w) as [[a | e | |] w1] eqn:E;
    try (inversion H; subst; eapply Hb; eassumption).
  destruct (isinstance_Exception e).
  - eapply quiet_step_trans; [eapply Hb | eapply Hh]; eassumption.
  - inversion H; subst. eapply Hb; eassumption.
Qed.

Lemma quiet_try_finally {A} (body : M A) (fin : M unit) :
  quiet body -> quiet fin -> quiet (try_finally body fin).
Proof.
  intros Hb Hf w r w' H. unfold try_finally in H.
  destruct (body w) as [[a | e | |] w1] eqn:E;
    try (inversion H; subst; eapply Hb; eassumption);
    destruct (fin w1) as [[[] | e' | |] w2] eqn:E2; inversion H; subst;
    (eapply quiet_step_trans; [eapply Hb | eapply Hf]; eassumption).
Qed.

Lemma quiet_deref {A} (x : option A) : quiet (deref x).
Proof. destruct x; [apply quiet_ret | apply quiet_raise]. Qed.

Section Quiet.

Variable env : Env.

Lemma quiet_random_choice {A} (seq : list A) : quiet (random_choice env seq).
Proof.
  intros w r w' H. apply random_choice_inv in H.
  destruct H as [[_ [_ ->]] | [x [_ [-> _]]]]; [apply quiet_step_refl |].
  split; [reflexivity |]. exists []. rewrite app_nil_r. auto.
Qed.

Lemma quiet_log lvl fmt args : quiet (log lvl fmt args).
Proof. apply quiet_modify. intros w. apply quiet_step_emit. reflexivity. Qed.

Lemma quiet_log_exc_info lvl fmt args e : quiet (log_exc_info lvl fmt args e).
Proof. apply quiet_modify. intros w. apply quiet_step_emit. reflexivity. Qed.

Lemma quiet_time_sleep s : quiet (time_sleep s).
Proof. apply quiet_modify. intros w. apply quiet_step_emit. reflexivity. Qed.

Lemma quiet_time_time : quiet (time_time env).
Proof. intros w r w' H. inversion H. apply quiet_step_emit. reflexivity. Qed.

Lemma quiet_call c : quiet (call env c).
Proof.
  intros w r w' H. unfold call in H.
  destruct (env_call env (trace w) c); inversion H; apply quiet_step_emit; reflexivity.
Qed.

Lemma quiet_remoter_run n cmd ign : quiet (remoter_run env n cmd ign).
Proof.
  intros w r w' H. unfold remoter_run in H.
  destruct (env_exec env (trace w) n cmd) as [status dur].
  destruct ((status =? 0)%Z || ign); inversion H; apply quiet_step_emit; reflexivity.
Qed.

Lemma quiet_get_node_info_list v : quiet (get_node_info_list env v).
Proof.
  intros w r w' H. unfold get_node_info_list in H.
  destruct (env_node_info env (trace w) v); inversion H;
    apply quiet_step_emit; reflexivity.
Qed.

Lemma quiet_with_nodes l w : quiet_step w (with_nodes l w).
Proof. split; [reflexivity |]. exists []. rewrite app_nil_r. auto. Qed.

Lemma quiet_with_target t w : quiet_step w (with_target t w).
Proof. split; [reflexivity |]. exists []. rewrite app_nil_r. auto. Qed.

Lemma quiet_with_next_node_id k w : quiet_step w (with_next_node_id k w).
Proof. split; [reflexivity |]. exists []. rewrite app_nil_r. auto. Qed.

Create HintDb quiet.

#[local] Hint Resolve quiet_ret quiet_raise quiet_out_of_fuel quiet_get quiet_deref
  quiet_random_choice quiet_log quiet_log_exc_info quiet_time_sleep quiet_time_time
  quiet_call quiet_remoter_run quiet_get_node_info_list
  quiet_with_nodes quiet_with_target quiet_with_next_node_id quiet_step_refl : quiet.

(** Splits a sequence of statements into its steps and closes the
    steps that are library calls. *)
Ltac quiet_steps :=
  repeat first
    [ solve [ auto with quiet ]
    | apply quiet_bind; [| intros ]
    | apply quiet_modify; intros
    | apply quiet_try_finally
    | apply quiet_try_except_Exception; [| intros ] ].

Lemma quiet_add_nodes count : quiet (add_nodes env count).
Proof.
  unfold add_nodes. quiet_steps.
  eapply quiet_step_trans; [apply quiet_with_nodes | apply quiet_with_next_node_id].
Qed.

Lemma quiet_set_target_node : quiet (set_target_node env).
Proof. unfold set_target_node. quiet_steps. Qed.

Lemma quiet_disrupt_nodetool_drain : quiet (disrupt_nodetool_drain env).
Proof. unfold disrupt_nodetool_drain. quiet_steps. Qed.

Lemma quiet_resample_verification_node fuel :
  forall v, quiet (resample_verification_node env fuel v).
Proof.
  induction fuel as [| fuel IH]; intros v; cbn [resample_verification_node];
    apply quiet_bind; auto with quiet; intros t;
    destruct (node_is v t); auto with quiet.
  quiet_steps.
Qed.

Lemma quiet_choose_verification_node fuel : quiet (choose_verification_node env fuel).
Proof.
  unfold choose_verification_node. pose proof quiet_resample_verification_node.
  quiet_steps.
Qed.

Lemma quiet_disrupt_nodetool_decommission fuel :
  quiet (disrupt_nodetool_decommission env fuel).
Proof.
  unfold disrupt_nodetool_decommission.
  pose proof quiet_choose_verification_node. pose proof quiet_add_nodes.
  quiet_steps.
  destruct (str_in _ _); quiet_steps.
  destruct (list_remove _ _); quiet_steps.
Qed.

Lemma quiet_disrupt_stop_start : quiet (disrupt_stop_start env).
Proof. unfold disrupt_stop_start. quiet_steps. Qed.

Lemma quiet_disrupt_kill_scylla_daemon : quiet (disrupt_kill_scylla_daemon env).
Proof. unfold disrupt_kill_scylla_daemon. quiet_steps. Qed.

Lemma quiet__destroy_data : quiet (_destroy_data env).
Proof.
  unfold _destroy_data. pose proof quiet_disrupt_kill_scylla_daemon. quiet_steps.
Qed.

Lemma quiet_repair_nodetool_repair : quiet (repair_nodetool_repair env).
Proof. unfold repair_nodetool_repair. quiet_steps. Qed.

Lemma quiet_rebuild_each nodes : quiet (rebuild_each env nodes).
Proof.
  induction nodes as [| node rest IH]; cbn [rebuild_each]; quiet_steps.
Qed.

Lemma quiet_repair_nodetool_rebuild : quiet (repair_nodetool_rebuild env).
Proof.
  unfold repair_nodetool_rebuild. pose proof quiet_rebuild_each. quiet_steps.
Qed.

Lemma quiet_disrupt_destroy_data_then_repair :
  quiet (disrupt_destroy_data_then_repair env).
Proof.
  unfold disrupt_destroy_data_then_repair.
  pose proof quiet__destroy_data. pose proof quiet_repair_nodetool_repair. quiet_steps.
Qed.

Lemma quiet_disrupt_destroy_data_then_rebuild :
  quiet (disrupt_destroy_data_then_rebuild env).
Proof.
  unfold disrupt_destroy_data_then_rebuild.
  pose proof quiet__destroy_data. pose proof quiet_repair_nodetool_rebuild. quiet_steps.
Qed.

Lemma quiet_call_member fuel x : quiet (call_member env fuel x).
Proof.
  destruct x as [m | | b]; try apply quiet_raise.
  destruct m; cbn [call_member]; try apply quiet_raise.
  - apply quiet_disrupt_nodetool_drain.
  - apply quiet_disrupt_nodetool_decommission.
  - apply quiet_disrupt_stop_start.
  - apply quiet_disrupt_kill_scylla_daemon.
  - apply quiet_disrupt_destroy_data_then_repair.
  - apply quiet_disrupt_destroy_data_then_rebuild.
Qed.

Lemma quiet_call_random_disrupt_method fuel : quiet (call_random_disrupt_method env fuel).
Proof.
  unfold call_random_disrupt_method. pose proof quiet_call_member. quiet_steps.
Qed.

Lemma quiet_log_time_elapsed c (method : M unit) :
  quiet method -> quiet (log_time_elapsed env c method).
Proof. intros Hm. unfold log_time_elapsed. quiet_steps. Qed.

Lemma quiet_disrupt fuel c : quiet (disrupt env fuel c).
Proof.
  destruct c; cbn [disrupt]; try apply quiet_raise; apply quiet_log_time_elapsed.
  - apply quiet_disrupt_stop_start.
  - apply quiet_disrupt_nodetool_drain.
  - apply quiet_disrupt_destroy_data_then_repair.
  - apply quiet_disrupt_destroy_data_then_rebuild.
  - apply quiet_disrupt_nodetool_decommission.
  - apply quiet_call_random_disrupt_method.
Qed.

End Quiet.

(** ** The scheduling loop *)

Section Scheduler.

Variable env : Env.

Lemma check_termination_unfold arg w :
  check_termination env arg w =
  match arg with
  | None => (Ok false, w)
  | Some _ =>
      match termination_event w with
      | None => (Raise AttributeError, w)
      | Some e =>
          if env_is_set env (trace w) e
          then (Ok true, with_termination_event None (emit (EvIsSet e true) w))
          else (Ok false, emit (EvIsSet e false) w)
      end
  end.
Proof.
  destruct arg as [a |]; [| reflexivity].
  unfold check_termination, bind, get, deref, isSet.
  destruct (termination_event w) as [e |]; [| reflexivity].
  cbn. destruct (env_is_set env (trace w) e); reflexivity.
Qed.

Lemma run_loop_unfold cycles fuel c interval arg w :
  run_loop env (S cycles) fuel c interval arg w =
  match disrupt env fuel c (emit (EvSleep interval) w) with
  | (Ok _, w1) =>
      match check_termination env arg w1 with
      | (Ok true, w2) => (Ok tt, w2)
      | (Ok false, w2) =>
          match set_target_node env w2 with
          | (Ok _, w3) => run_loop env cycles fuel c interval arg w3
          | (Raise e, w3) => (Raise e, w3)
          | (Blocked, w3) => (Blocked, w3)
          | (OutOfFuel, w3) => (OutOfFuel, w3)
          end
      | (Raise e, w2) => (Raise e, w2)
      | (Blocked, w2) => (Blocked, w2)
      | (OutOfFuel, w2) => (OutOfFuel, w2)
      end
  | (Raise e, w1) => (Raise e, w1)
  | (Blocked, w1) => (Blocked, w1)
  | (OutOfFuel, w1) => (OutOfFuel, w1)
  end.
Proof.
  cbn [run_loop]. unfold bind at 1, time_sleep, modify. unfold bind at 1.
  destruct (disrupt env fuel c _) as [[[] | e | |] w1]; try reflexivity.
  unfold bind at 1.
  destruct (check_termination env arg w1) as [[[|] | e | |] w2]; reflexivity.
Qed.

Lemma no_set_poll_app l1 l2 :
  no_set_poll (l1 ++ l2) = no_set_poll l1 && no_set_poll l2.
Proof. apply forallb_app. Qed.

Lemma no_poll_no_set_poll l :
  forallb (fun ev => negb (is_poll ev)) l = true -> no_set_poll l = true.
Proof.
  unfold no_set_poll. rewrite !forallb_forall. intros H ev Hin.
  specialize (H ev Hin). destruct ev; try reflexivity. discriminate H.
Qed.

(** What a quiet computation adds to a history that had no set poll. *)
Lemma quiet_step_after w0 w w' n :
  trace w = trace w0 ++ n -> no_set_poll n = true -> quiet_step w w' ->
  exists n', trace w' = trace w0 ++ n' /\ no_set_poll n' = true /\
             termination_event w' = termination_event w.
Proof.
  intros Hn Hs [Hte [m [Hm Hf]]]. exists (n ++ m).
  rewrite Hm, Hn, app_assoc, no_set_poll_app, Hs, (no_poll_no_set_poll _ Hf). auto.
Qed.

(** The shape of every run of the loop: either no poll saw the event
    set and the loop did not end normally, or the poll that saw it set
    is the last thing that happened and the loop ended normally. *)
Lemma run_loop_trace cycles fuel c interval arg :
  forall w r w',
    run_loop env cycles fuel c interval arg w = (r, w') ->
    exists new, trace w' = trace w ++ new /\
      ((no_set_poll new = true /\ r <> Ok tt) \/
       (exists q ev, new = q ++ [EvIsSet ev true] /\ no_set_poll q = true /\
                     r = Ok tt /\ termination_event w' = None)).
Proof.
  induction cycles as [| cycles IH]; intros w r w' H.
  - inversion H; subst. exists []. rewrite app_nil_r. split; [reflexivity |].
    left. split; [reflexivity | discriminate].
  - rewrite run_loop_unfold in H.
    destruct (disrupt env fuel c (emit (EvSleep interval) w)) as [rd w1] eqn:Ed.
    assert (H1 : exists n1, trace w1 = trace w ++ n1 /\ no_set_poll n1 = true /\
                            termination_event w1 = termination_event w).
    { apply (quiet_step_after w (emit (EvSleep interval) w) w1 [EvSleep interval]);
        [reflexivity | reflexivity |].
      eapply quiet_disrupt; eassumption. }
    destruct H1 as [n1 [Hn1 [Hs1 _]]].
    assert (Hstop : forall (r0 : Result unit), r0 <> Ok tt -> (r0, w1) = (r, w') ->
              exists new, trace w' = trace w ++ new /\
                ((no_set_poll new = true /\ r <> Ok tt) \/
                 (exists q ev, new = q ++ [EvIsSet ev true] /\ no_set_poll q = true /\
                               r = Ok tt /\ termination_event w' = None))).
    { intros r0 Hr0 Heq. inversion Heq; subst. exists n1. split; [exact Hn1 |].
      left. auto. }
    assert (Hnext : forall w2 n2, trace w2 = trace w ++ n2 -> no_set_poll n2 = true ->
              match set_target_node env w2 with
              | (Ok _, w3) => run_loop env cycles fuel c interval arg w3
              | (Raise e, w3) => (Raise e, w3)
              | (Blocked, w3) => (Blocked, w3)
              | (OutOfFuel, w3) => (OutOfFuel, w3)
              end = (r, w') ->
              exists new, trace w' = trace w ++ new /\
                ((no_set_poll new = true /\ r <> Ok tt) \/
                 (exists q ev, new = q ++ [EvIsSet ev true] /\ no_set_poll q = true /\
                               r = Ok tt /\ termination_event w' = None))).
    { intros w2 n2 Hn2 Hs2 Hrun.
      destruct (set_target_node env w2) as [rs w3] eqn:Es.
      destruct (quiet_step_after w w2 w3 n2 Hn2 Hs2) as [n3 [Hn3 [Hs3 _]]].
      { eapply quiet_set_target_node; eassumption. }
      destruct rs as [[] | e | |];
        try (inversion Hrun; subst; exists n3; split; [exact Hn3 |];
             left; split; [exact Hs3 | discriminate]).
      apply IH in Hrun. destruct Hrun as [new [Hnew Hcase]].
      exists (n3 ++ new). rewrite Hnew, Hn3, app_assoc. split; [reflexivity |].
      destruct Hcase as [[Hs Hr] | [q [ev [Hq [Hsq [Hr Hte]]]]]].
      - left. rewrite no_set_poll_app, Hs3, Hs. auto.
      - right. exists (n3 ++ q), ev. rewrite Hq, app_assoc, no_set_poll_app, Hs3, Hsq.
        auto. }
    destruct rd as [[] | e | |];
      try (eapply Hstop; [| exact H]; discriminate).
    rewrite check_termination_unfold in H.
    destruct arg as [a |].
    + destruct (termination_event w1) as [e |].
      * destruct (env_is_set env (trace w1) e).
        -- inversion H; subst. exists (n1 ++ [EvIsSet e true]).
           cbn [trace with_termination_event emit termination_event].
           rewrite Hn1, app_assoc. split; [reflexivity |].
           right. exists n1, e. auto.
        -- apply (Hnext (emit (EvIsSet e false) w1) (n1 ++ [EvIsSet e false])).
           ++ cbn [trace emit]. rewrite Hn1, app_assoc. reflexivity.
           ++ rewrite no_set_poll_app, Hs1. reflexivity.
           ++ exact H.
      * eapply Hstop; [| exact H]; discriminate.
    + apply (Hnext w1 n1 Hn1 Hs1 H).
Qed.

(** A poll that saw the event set can only sit at the end of a history
    that otherwise has none. *)
Lemma set_poll_is_last q ev0 pre ev post :
  no_set_poll q = true ->
  q ++ [EvIsSet ev0 true] = pre ++ EvIsSet ev true :: post ->
  post = [].
Proof.
  revert pre. induction q as [| x q IH]; intros pre Hs H.
  - destruct pre as [| y pre]; cbn in H.
    + inversion H. reflexivity.
    + exfalso. injection H as _ Hrest. destruct pre; discriminate Hrest.
  - destruct pre as [| y pre]; cbn in H.
    + inversion H; subst. discriminate Hs.
    + inversion H; subst. cbn in Hs. apply andb_true_iff in Hs.
      eapply IH; [apply Hs | eassumption].
Qed.

Lemma set_poll_not_in l pre ev post :
  no_set_poll l = true -> l <> pre ++ EvIsSet ev true :: post.
Proof.
  intros Hs ->. rewrite no_set_poll_app in Hs. apply andb_true_iff in Hs.
  destruct Hs as [_ Hs]. discriminate Hs.
Qed.

(** C2. In every run of the scheduler loop, a poll of the termination
    event that sees it set is the last event of the run: the loop then
    ends normally with [self.termination_event] cleared, and no sleep,
    no disruption and no target selection comes after that poll. *)
Theorem run_exits_once_signal_observed
    (cycles fuel : nat) (c : Monkey) (interval : nat) (arg : option EventId)
    (w : World) (r : Result unit) (w' : World) (pre : list Event) (ev : EventId)
    (post : list Event) :
  run env cycles fuel c interval arg w = (r, w') ->
  trace w' = trace w ++ pre ++ EvIsSet ev true :: post ->
  post = [] /\ r = Ok tt /\ termination_event w' = None.
Proof.
  unfold run. intros H Hsplit.
  apply run_loop_trace in H. destruct H as [new [Hnew Hcase]].
  rewrite Hnew in Hsplit. apply app_inv_head in Hsplit.
  destruct Hcase as [[Hs _] | [q [e0 [Hq [Hs [Hr Hte]]]]]].
  - exfalso. exact (set_poll_not_in _ _ _ _ Hs Hsplit).
  - subst new. split; [| auto]. eapply set_poll_is_last; eassumption.
Qed.

Lemma events_since_app w w' new :
  trace w' = trace w ++ new -> events_since w w' = new.
Proof.
  intros H. unfold events_since. rewrite H. clear H.
  induction (trace w) as [| x l IH]; [reflexivity | exact IH].
Qed.

Lemma quiet_step_events w w' :
  quiet_step w w' ->
  termination_event w' = termination_event w /\
  forall ev b, ~ In (EvIsSet ev b) (events_since w w').
Proof.
  intros [Hte [new [Hnew Hf]]]. split; [exact Hte |].
  rewrite (events_since_app _ _ _ Hnew). intros ev b Hin.
  rewrite forallb_forall in Hf. specialize (Hf _ Hin). discriminate Hf.
Qed.

(** Without an event passed to [run] the loop never polls and never
    ends normally. *)
Lemma run_loop_without_event cycles fuel c interval :
  forall w r w',
    run_loop env cycles fuel c interval None w = (r, w') ->
    quiet_step w w' /\ r <> Ok tt.
Proof.
  induction cycles as [| cycles IH]; intros w r w' H.
  - inversion H; subst. split; [apply quiet_step_refl | discriminate].
  - rewrite run_loop_unfold in H.
    destruct (disrupt env fuel c (emit (EvSleep interval) w)) as [rd w1] eqn:Ed.
    assert (H1 : quiet_step w w1).
    { apply (quiet_step_trans w (emit (EvSleep interval) w) w1);
        [apply quiet_step_emit; reflexivity |].
      eapply quiet_disrupt; eassumption. }
    destruct rd as [[] | e | |];
      try (inversion H; subst; split; [exact H1 | discriminate]).
    rewrite check_termination_unfold in H.
    destruct (set_target_node env w1) as [rs w2] eqn:Es.
    assert (H2 : quiet_step w w2).
    { eapply quiet_step_trans; [exact H1 |]. eapply quiet_set_target_node; eassumption. }
    destruct rs as [[] | e | |];
      try (inversion H; subst; split; [exact H2 | discriminate]).
    apply IH in H. destruct H as [H3 Hr]. split; [| exact Hr].
    eapply quiet_step_trans; eassumption.
Qed.

(** Which event is passed to [run] makes no difference. *)
Lemma run_loop_any_event cycles fuel c interval a a' :
  forall w,
    run_loop env cycles fuel c interval (Some a) w =
    run_loop env cycles fuel c interval (Some a') w.
Proof.
  induction cycles as [| cycles IH]; intros w; [reflexivity |].
  rewrite !run_loop_unfold.
  destruct (disrupt env fuel c (emit (EvSleep interval) w)) as [[[] | e | |] w1];
    try reflexivity.
  change (check_termination env (Some a') w1) with (check_termination env (Some a) w1).
  destruct (check_termination env (Some a) w1) as [[[|] | e | |] w2]; try reflexivity.
  destruct (set_target_node env w2) as [[[] | e | |] w3]; try reflexivity.
  apply IH.
Qed.

(** Every poll the loop makes is a poll of [self.termination_event]. *)
Lemma run_loop_polls_attribute cycles fuel c interval arg :
  forall w r w',
    run_loop env cycles fuel c interval arg w = (r, w') ->
    exists new, trace w' = trace w ++ new /\
      forall ev b, In (EvIsSet ev b) new -> termination_event w = Some ev.
Proof.
  induction cycles as [| cycles IH]; intros w r w' H.
  - inversion H; subst. exists []. rewrite app_nil_r. split; [reflexivity |].
    intros ev b [].
  - rewrite run_loop_unfold in H.
    destruct (disrupt env fuel c (emit (EvSleep interval) w)) as [rd w1] eqn:Ed.
    assert (H1 : quiet_step w w1).
    { apply (quiet_step_trans w (emit (EvSleep interval) w) w1);
        [apply quiet_step_emit; reflexivity |].
      eapply quiet_disrupt; eassumption. }
    assert (Hquiet : forall w2, quiet_step w w2 ->
              exists new, trace w2 = trace w ++ new /\
                forall ev b, In (EvIsSet ev b) new -> termination_event w = Some ev).
    { intros w2 [_ [n [Hn Hf]]]. exists n. split; [exact Hn |]. intros ev b Hin.
      rewrite forallb_forall in Hf. specialize (Hf _ Hin). discriminate Hf. }
    assert (Hnext : forall w2 n2,
              trace w2 = trace w ++ n2 ->
              termination_event w2 = termination_event w ->
              (forall ev b, In (EvIsSet ev b) n2 -> termination_event w = Some ev) ->
              match set_target_node env w2 with
              | (Ok _, w3) => run_loop env cycles fuel c interval arg w3
              | (Raise e, w3) => (Raise e, w3)
              | (Blocked, w3) => (Blocked, w3)
              | (OutOfFuel, w3) => (OutOfFuel, w3)
              end = (r, w') ->
              exists new, trace w' = trace w ++ new /\
                forall ev b, In (EvIsSet ev b) new -> termination_event w = Some ev).
    { intros w2 n2 Hn2 Hte2 Hp2 Hrun.
      destruct (set_target_node env w2) as [rs w3] eqn:Es.
      assert (H3 : quiet_step w2 w3) by (eapply quiet_set_target_node; eassumption).
      destruct H3 as [Hte3 [n3 [Hn3 Hf3]]].
      assert (Hp3 : forall ev b, In (EvIsSet ev b) (n2 ++ n3) ->
                                 termination_event w = Some ev).
      { intros ev b Hin. apply in_app_or in Hin. destruct Hin as [Hin | Hin].
        - eapply Hp2; eassumption.
        - rewrite forallb_forall in Hf3. specialize (Hf3 _ Hin). discriminate Hf3. }
      assert (Htr3 : trace w3 = trace w ++ n2 ++ n3)
        by (rewrite Hn3, Hn2, app_assoc; reflexivity).
      destruct rs as [[] | e | |];
        try (inversion Hrun; subst; exists (n2 ++ n3); split; assumption).
      apply IH in Hrun. destruct Hrun as [new [Hnew Hp]].
      exists ((n2 ++ n3) ++ new). rewrite Hnew, Htr3, !app_assoc. split; [reflexivity |].
      intros ev b Hin. apply in_app_or in Hin. destruct Hin as [Hin | Hin].
      - eapply Hp3; eassumption.
      - rewrite <- Hte2, <- Hte3. eapply Hp; eassumption. }
    destruct rd as [[] | e | |];
      try (inversion H; subst; apply Hquiet; exact H1).
    destruct H1 as [Hte1 [n1 [Hn1 Hf1]]].
    assert (Hp1 : forall ev b, In (EvIsSet ev b) n1 -> termination_event w = Some ev).
    { intros ev b Hin. rewrite forallb_forall in Hf1. specialize (Hf1 _ Hin).
      discriminate Hf1. }
    rewrite check_termination_unfold in H.
    destruct arg as [a |].
    + destruct (termination_event w1) as [e |] eqn:Ete.
      * assert (Hp1' : forall ev b b', In (EvIsSet ev b) (n1 ++ [EvIsSet e b']) ->
                                       termination_event w = Some ev).
        { intros ev b b' Hin. apply in_app_or in Hin. destruct Hin as [Hin | Hin].
          - eapply Hp1; eassumption.
          - destruct Hin as [Heq | []]. inversion Heq; subst. congruence. }
        destruct (env_is_set env (trace w1) e).
        -- inversion H; subst. exists (n1 ++ [EvIsSet e true]).
           cbn [trace with_termination_event emit].
           rewrite Hn1, app_assoc. split; [reflexivity |].
           intros ev b. apply Hp1'.
        -- apply (Hnext (emit (EvIsSet e false) w1) (n1 ++ [EvIsSet e false])).
           ++ cbn [trace emit]. rewrite Hn1, app_assoc. reflexivity.
           ++ cbn [termination_event emit]. congruence.
           ++ intros ev b. apply Hp1'.
           ++ exact H.
      * inversion H; subst. exists n1. split; assumption.
    + apply (Hnext w1 n1 Hn1 Hte1 Hp1 H).
Qed.

(** [__init__] stores the event it was given in [self.termination_event]. *)
Lemma init_stores_termination_event te w w' :
  __init__ env te w = (Ok tt, w') -> termination_event w' = te.
Proof.
  unfold __init__. unfold bind at 1, modify at 1. unfold bind at 1.
  destruct (set_target_node env _) as [[[] | e | |] w1]; intros H; inversion H.
  reflexivity.
Qed.

(** C10. Called with its default [termination_event=None], [run] never
    ends normally, whatever the number of cycles it is followed for,
    never polls an event and leaves [self.termination_event] as it was.
    Called with an event, the result does not depend on which event was
    passed, and every poll made is a poll of the attribute
    [self.termination_event] as it was when [run] was entered, which is
    the event [__init__] was given if nothing has changed it since. *)
Theorem run_polls_attribute_only_if_argument_given
    (cycles fuel : nat) (c : Monkey) (interval : nat) (w : World) :
  (fst (run env cycles fuel c interval None w) <> Ok tt /\
   termination_event (snd (run env cycles fuel c interval None w)) = termination_event w /\
   forall ev b,
     ~ In (EvIsSet ev b) (events_since w (snd (run env cycles fuel c interval None w)))) /\
  (forall a,
     (forall a', run env cycles fuel c interval (Some a) w =
                 run env cycles fuel c interval (Some a') w) /\
     (forall ev b,
        In (EvIsSet ev b) (events_since w (snd (run env cycles fuel c interval (Some a) w))) ->
        termination_event w = Some ev)) /\
  (forall te w0, __init__ env te w0 = (Ok tt, w) -> termination_event w = te).
Proof.
  unfold run. split; [| split; [| intros te w0; apply init_stores_termination_event]].
  - destruct (run_loop env cycles fuel c (interval * 60) None w) as [r w'] eqn:E.
    apply run_loop_without_event in E. destruct E as [Hq Hr].
    cbn [fst snd]. split; [exact Hr |]. apply quiet_step_events. exact Hq.
  - intros a. split; [intros a'; apply run_loop_any_event |].
    destruct (run_loop env cycles fuel c (interval * 60) (Some a) w) as [r w'] eqn:E.
    apply run_loop_polls_attribute in E. destruct E as [new [Hnew Hp]].
    cbn [snd]. rewrite (events_since_app _ _ _ Hnew). exact Hp.
Qed.

End Scheduler.

Lemma run_exits_once_signal_observed_witness :
  fst (run env0 2 0 StopStartMonkey 1 (Some 7) world0) = Ok tt /\
  termination_event (snd (run env0 2 0 StopStartMonkey 1 (Some 7) world0)) = None.
Proof.
  apply (run_exits_once_signal_observed env0 2 0 StopStartMonkey 1 (Some 7) world0
           (fst (run env0 2 0 StopStartMonkey 1 (Some 7) world0))
           (snd (run env0 2 0 StopStartMonkey 1 (Some 7) world0))
           (removelast (trace (snd (run env0 2 0 StopStartMonkey 1 (Some 7) world0))))
           7 []).
  - reflexivity.
  - reflexivity.
Defined.

(** With the termination event set all along: three cycles of [run]
    without an event passed go by without a poll, and with another
    event passed the one polled is the attribute's. *)
Lemma run_polls_attribute_only_if_argument_given_witness :
  fst (run env0 3 0 StopStartMonkey 1 None world0) = OutOfFuel /\
  fst (run env0 3 0 StopStartMonkey 1 None world0) <> Ok tt /\
  (forall ev b,
     In (EvIsSet ev b) (events_since world0 (snd (run env0 3 0 StopStartMonkey 1 (Some 99) world0))) ->
     termination_event world0 = Some ev) /\
  In (EvIsSet 7 true) (events_since world0 (snd (run env0 3 0 StopStartMonkey 1 (Some 99) world0))).
Proof.
  split; [reflexivity |].
  destruct (run_polls_attribute_only_if_argument_given env0 3 0 StopStartMonkey 1 world0)
    as [[H1 _] [H2 _]].
  split; [exact H1 |].
  split; [exact (proj2 (H2 99)) |].
  vm_compute. tauto.
Defined.

(** ** The decommission action *)

Lemma list_remove_Some x l r :
  list_remove x l = Some r ->
  length l = S (length r) /\ In x l /\ (forall y, In y r -> In y l) /\
  (NoDup l -> ~ In x r /\ NoDup r).
Proof.
  revert r. induction l as [| y l IH]; intros r H; cbn in H; [discriminate |].
  destruct (node_eqb y x) eqn:E.
  - inversion H; subst. apply node_eqb_eq in E. subst y.
    repeat split; cbn; auto; inversion H0; assumption.
  - destruct (list_remove x l) as [r' |]; [| discriminate].
    inversion H; subst. destruct (IH r' eq_refl) as [Hlen [Hin [Hsub Hnd]]].
    repeat split; cbn; auto.
    + intros z [Hz | Hz]; auto.
    + intros [Hyx | Hx].
      * subst y. rewrite node_eqb_refl in E. discriminate.
      * inversion H0; subst. apply Hnd; assumption.
    + inversion H0; subst. constructor; [| apply Hnd; assumption].
      intros Hy. apply H3. apply Hsub. exact Hy.
Qed.

Section Decommission.

Variable env : Env.

(** Choosing the verification node only moves the generator on. *)
Lemma resample_verification_node_frame fuel :
  forall v w r w',
    resample_verification_node env fuel v w = (r, w') ->
    exists q, w' = with_rng_pos q w.
Proof.
  induction fuel as [| fuel IH]; intros v w r w' H;
    rewrite resample_verification_node_unfold in H;
    destruct (node_is v (target_node w));
    try (inversion H; subst; exists (rng_pos w'); symmetry; apply with_rng_pos_id).
  destruct (random_choice env (cluster_nodes w) w) as [rc w1] eqn:Ec.
  apply random_choice_inv in Ec.
  destruct Ec as [[_ [-> ->]] | [x [-> [-> _]]]].
  - inversion H; subst. exists (rng_pos w'). symmetry. apply with_rng_pos_id.
  - apply IH in H. destruct H as [q ->]. exists q. reflexivity.
Qed.

Lemma choose_verification_node_frame fuel w r w' :
  choose_verification_node env fuel w = (r, w') ->
  exists q, w' = with_rng_pos q w.
Proof.
  unfold choose_verification_node. unfold bind at 1, get at 1. unfold bind at 1.
  destruct (random_choice env (cluster_nodes w) w) as [rc w1] eqn:Ec.
  apply random_choice_inv in Ec.
  destruct Ec as [[_ [-> ->]] | [x [-> [-> _]]]]; intros H.
  - inversion H; subst. exists (rng_pos w'). symmetry. apply with_rng_pos_id.
  - apply resample_verification_node_frame in H. destruct H as [q ->].
    exists q. reflexivity.
Qed.

(** The decommission, statement by statement, once a target is set. *)
Lemma disrupt_nodetool_decommission_unfold fuel w n :
  target_node w = Some n ->
  disrupt_nodetool_decommission env fuel w =
  match remoter_run env n "nodetool --host localhost decommission" false
          (emit (EvLog INFO "Decommission %s" [ANode (Some n)] None) w) with
  | (Ok result, w2) =>
      match choose_verification_node env fuel
              (emit (EvLog DEBUG "%s duration -> %s s"
                           [AStr (command result); ANum (duration result)] None) w2) with
      | (Ok v, w4) =>
          match get_node_info_list env v w4 with
          | (Ok infos, w5) =>
              if str_in (private_ip_address n) (map info_ip infos)
              then (Raise (AssertionError error_msg_format [ANode (Some n); AInfoList infos]), w5)
              else
                match list_remove n (cluster_nodes w5) with
                | None => (Raise ValueError, w5)
                | Some rest =>
                    (call env (Destroy n) ;;
                     new_nodes <- add_nodes env 1 ;;
                     call env (WaitForInit new_nodes)) (with_nodes rest w5)
                end
          | (Raise e, w5) => (Raise e, w5)
          | (Blocked, w5) => (Blocked, w5)
          | (OutOfFuel, w5) => (OutOfFuel, w5)
          end
      | (Raise e, w4) => (Raise e, w4)
      | (Blocked, w4) => (Blocked, w4)
      | (OutOfFuel, w4) => (OutOfFuel, w4)
      end
  | (Raise e, w2) => (Raise e, w2)
  | (Blocked, w2) => (Blocked, w2)
  | (OutOfFuel, w2) => (OutOfFuel, w2)
  end.
Proof.
  intros Ht. unfold disrupt_nodetool_decommission.
  unfold bind at 1, get at 1. rewrite Ht.
  unfold bind at 1, log at 1, modify at 1.
  unfold bind at 1, deref at 1, ret at 1.
  unfold bind at 1.
  destruct (remoter_run env n _ false _) as [[result | e | |] w2]; try reflexivity.
  unfold bind at 1, log at 1, modify at 1.
  unfold bind at 1.
  destruct (choose_verification_node env fuel _) as [[v | e | |] w4]; try reflexivity.
  unfold bind at 1.
  destruct (get_node_info_list env v w4) as [[infos | e | |] w5]; try reflexivity.
  destruct (str_in _ _); [reflexivity |].
  unfold bind at 1, get at 1.
  destruct (list_remove n (cluster_nodes w5)); [| reflexivity].
  unfold bind at 1, modify at 1. reflexivity.
Qed.

(** The statements after the removal: destroy, add one node, wait. *)
Lemma replacement_spec n w6 r w' :
  (call env (Destroy n) ;;
   new_nodes <- add_nodes env 1 ;;
   call env (WaitForInit new_nodes)) w6 = (r, w') ->
  target_node w' = target_node w6 /\
  exists calls,
    trace w' = trace w6 ++ calls /\
    (forall ev, In ev calls -> exists c o, ev = EvCall c o) /\
    (r = Ok tt ->
     exists new_node,
       node_id new_node = next_node_id w6 /\
       next_node_id w' = next_node_id w6 + 1 /\
       cluster_nodes w' = cluster_nodes w6 ++ [new_node] /\
       calls = [EvCall (Destroy n) (Returns tt);
                EvCall (AddNodes 1) (Returns tt);
                EvCall (WaitForInit [new_node]) (Returns tt)]).
Proof.
  unfold bind at 1, call at 1.
  destruct (env_call env (trace w6) (Destroy n)) as [[] | e |] eqn:Ed;
    try (intros H; inversion H; subst; split; [reflexivity |];
         eexists; split; [reflexivity |]; split;
         [intros ev [<- | []]; eauto | discriminate]).
  unfold add_nodes. unfold bind at 1. unfold bind at 1, call at 1.
  destruct (env_call env (trace (emit _ w6)) (AddNodes 1)) as [[] | e |] eqn:Ea;
    try (intros H; inversion H; subst; split; [reflexivity |];
         eexists; split; [history |]; split;
         [intros ev [<- | [<- | []]]; eauto | discriminate]).
  unfold bind at 1, get at 1. unfold bind at 1, get at 1.
  unfold bind at 1, modify at 1. unfold ret at 1. unfold call.
  cbn [seq map trace emit with_nodes with_next_node_id cluster_nodes next_node_id
       target_node termination_event rng_pos].
  match goal with
  | |- context [env_call env ?h (WaitForInit ?l)] =>
      destruct (env_call env h (WaitForInit l)) as [[] | e |] eqn:Ew
  end;
    intros H; inversion H; subst; (split; [reflexivity |]);
    (eexists; split; [history |]; split;
     [intros ev [<- | [<- | [<- | []]]]; eauto | try discriminate]).
  intros _. eexists. split; [| split; [| split]]; cycle 3.
  - reflexivity.
  - cbn [node_id]. lia.
  - reflexivity.
  - world_simpl. rewrite <- ?app_assoc. reflexivity.
Qed.

(** C3, as the code has it.  If the membership query of a decommission
    came back with a list holding the target's address, the action ends
    with the AssertionError of the [assert] statement, carrying the
    message about the target and that list; the node list and the
    target are as before, and no call on the cluster or on a node
    (destroy, add_nodes, wait_for_init) was made. *)
Theorem decommission_still_member_asserts
    (fuel : nat) (w : World) (n v : Node) (infos : list NodeInfo) :
  target_node w = Some n ->
  In (EvNodeInfo v (Returns infos))
     (events_since w (snd (disrupt_nodetool_decommission env fuel w))) ->
  In (private_ip_address n) (map info_ip infos) ->
  fst (disrupt_nodetool_decommission env fuel w)
    = Raise (AssertionError error_msg_format [ANode (Some n); AInfoList infos]) /\
  cluster_nodes (snd (disrupt_nodetool_decommission env fuel w)) = cluster_nodes w /\
  target_node (snd (disrupt_nodetool_decommission env fuel w)) = Some n /\
  forall c o,
    ~ In (EvCall c o) (events_since w (snd (disrupt_nodetool_decommission env fuel w))).
Proof.
  intros Ht. rewrite (disrupt_nodetool_decommission_unfold fuel w n Ht).
  unfold remoter_run.
  destruct (env_exec env _ n "nodetool --host localhost decommission") as [status dur].
  destruct ((status =? 0)%Z || false).
  2:{ cbn [fst snd]. intros Hin. exfalso.
      erewrite events_since_app in Hin
        by history.
      cbn in Hin. intuition discriminate. }
  match goal with
  | |- context [choose_verification_node env fuel ?w3] =>
      destruct (choose_verification_node env fuel w3) as [rv w4] eqn:Ec
  end.
  apply choose_verification_node_frame in Ec. destruct Ec as [q ->].
  destruct rv as [v0 | e | |];
    try (cbn [fst snd]; intros Hin; exfalso;
         erewrite events_since_app in Hin
           by history;
         cbn in Hin; intuition discriminate).
  unfold get_node_info_list.
  match goal with
  | |- context [env_node_info env ?h v0] =>
      destruct (env_node_info env h v0) as [infos0 | e |] eqn:Ei
  end;
    try (cbn [fst snd]; intros Hin; exfalso;
         erewrite events_since_app in Hin
           by history;
         cbn in Hin; intuition discriminate).
  destruct (str_in (private_ip_address n) (map info_ip infos0)) eqn:Es.
  - cbn [fst snd]. intros Hin Hip.
    erewrite events_since_app in *
      by history.
    assert (Heq : infos0 = infos).
    { cbn in Hin. destruct Hin as [H | [H | [H | [H | []]]]]; try discriminate H.
      inversion H. reflexivity. }
    subst infos0. split; [reflexivity |]. split; [reflexivity |]. split; [exact Ht |].
    intros c o Hc. cbn in Hc. intuition discriminate.
  - assert (Hno : ~ In (private_ip_address n) (map info_ip infos0)).
    { intros H. apply str_in_In in H. congruence. }
    match goal with
    | |- context [list_remove n ?l] => destruct (list_remove n l) as [rest |]
    end.
    + match goal with
      | |- context [bind ?m ?f ?w6] => destruct (bind m f w6) as [r w'] eqn:Er
      end.
      apply replacement_spec in Er. destruct Er as [_ [calls [Htr [Hcalls _]]]].
      cbn [fst snd]. intros Hin Hip. exfalso.
      erewrite events_since_app in Hin
        by (rewrite Htr; history).
      cbn in Hin. destruct Hin as [H | [H | [H | [H | H]]]]; try discriminate H.
      * inversion H; subst. contradiction.
      * apply Hcalls in H. destruct H as [c [o H]]. discriminate H.
    + cbn [fst snd]. intros Hin Hip. exfalso.
      erewrite events_since_app in Hin
        by history.
      cbn in Hin. destruct Hin as [H | [H | [H | [H | []]]]]; try discriminate H.
      inversion H; subst. contradiction.
Qed.

(** C6. When a decommission ends normally on a cluster whose node list
    holds no node twice (each node an object created before the next
    one to come), the node list is as long as before and again holds no
    node twice, the old target is not in it any more, and the
    list is the old one with the target taken out and one new node put
    at the end; the membership query had answered without the target's
    address, and [wait_for_init] was called on the new node and
    returned. *)
Theorem decommission_replaces_target (fuel : nat) (w w' : World) (n : Node) :
  target_node w = Some n ->
  well_formed w ->
  disrupt_nodetool_decommission env fuel w = (Ok tt, w') ->
  length (cluster_nodes w') = length (cluster_nodes w) /\
  ~ In n (cluster_nodes w') /\
  well_formed w' /\
  exists rest new_node v infos,
    list_remove n (cluster_nodes w) = Some rest /\
    cluster_nodes w' = rest ++ [new_node] /\
    ~ In new_node (cluster_nodes w) /\
    In (EvNodeInfo v (Returns infos)) (events_since w w') /\
    ~ In (private_ip_address n) (map info_ip infos) /\
    In (EvCall (WaitForInit [new_node]) (Returns tt)) (events_since w w').
Proof.
  intros Ht [Hnd Hid]. rewrite (disrupt_nodetool_decommission_unfold fuel w n Ht).
  unfold remoter_run.
  destruct (env_exec env _ n "nodetool --host localhost decommission") as [status dur].
  destruct ((status =? 0)%Z || false); [| discriminate].
  match goal with
  | |- context [choose_verification_node env fuel ?w3] =>
      destruct (choose_verification_node env fuel w3) as [rv w4] eqn:Ec
  end.
  apply choose_verification_node_frame in Ec. destruct Ec as [q ->].
  destruct rv as [v0 | e | |]; try discriminate.
  unfold get_node_info_list.
  match goal with
  | |- context [env_node_info env ?h v0] =>
      destruct (env_node_info env h v0) as [infos0 | e |] eqn:Ei
  end; try discriminate.
  destruct (str_in (private_ip_address n) (map info_ip infos0)) eqn:Es; [discriminate |].
  assert (Hno : ~ In (private_ip_address n) (map info_ip infos0)).
  { intros H. apply str_in_In in H. congruence. }
  world_simpl.
  destruct (list_remove n (cluster_nodes w)) as [rest |] eqn:Erm; [| discriminate].
  intros Hrun. apply replacement_spec in Hrun.
  destruct Hrun as [_ [calls [Htr [_ Hok]]]].
  destruct (Hok eq_refl) as [new_node [Hnew [Hnext [Hnodes Hcalls]]]].
  world_simpl_in Hnew. world_simpl_in Hnext. world_simpl_in Hnodes.
  destruct (list_remove_Some _ _ _ Erm) as [Hlen [Hin [Hsub Hout]]].
  destruct (Hout Hnd) as [Hgone Hndr].
  assert (Hfresh : ~ In new_node (cluster_nodes w)).
  { intros H. apply Hid in H. lia. }
  assert (Hev : events_since w w' =
                [EvLog INFO "Decommission %s" [ANode (Some n)] None;
                 EvRun n "nodetool --host localhost decommission" false
                       (mkCmdResult "nodetool --host localhost decommission" dur status);
                 EvLog DEBUG "%s duration -> %s s"
                       [AStr "nodetool --host localhost decommission"; ANum dur] None;
                 EvNodeInfo v0 (Returns infos0)] ++ calls).
  { apply events_since_app. rewrite Htr. history. }
  split; [rewrite Hnodes, length_app, Hlen; cbn; lia |].
  split; [| split].
  - rewrite Hnodes. intros H. apply in_app_or in H. destruct H as [H | [H | []]].
    + exact (Hgone H).
    + subst new_node. exact (Hfresh Hin).
  - split.
    + rewrite Hnodes. apply NoDup_app; [exact Hndr | repeat constructor; intros [] |].
      intros a Ha [<- | []]. apply Hfresh. apply Hsub. exact Ha.
    + rewrite Hnodes, Hnext. intros x Hx. apply in_app_or in Hx.
      destruct Hx as [Hx | [<- | []]]; [apply Hsub, Hid in Hx |]; lia.
  - exists rest, new_node, v0, infos0.
    split; [reflexivity |]. split; [exact Hnodes |]. split; [exact Hfresh |].
    rewrite Hev, Hcalls. split; [cbn; auto |]. split; [exact Hno |]. cbn. auto 10.
Qed.

End Decommission.

Lemma decommission_still_member_asserts_witness :
  fst (disrupt_nodetool_decommission env_still_member 3 world0)
    = Raise (AssertionError error_msg_format
               [ANode (Some node1);
                AInfoList [mkNodeInfo "seed" "10.0.0.1"; mkNodeInfo "node1" "10.0.0.2"]]) /\
  cluster_nodes (snd (disrupt_nodetool_decommission env_still_member 3 world0))
    = cluster_nodes world0 /\
  target_node (snd (disrupt_nodetool_decommission env_still_member 3 world0)) = Some node1 /\
  forall c o,
    ~ In (EvCall c o)
         (events_since world0 (snd (disrupt_nodetool_decommission env_still_member 3 world0))).
Proof.
  apply (decommission_still_member_asserts env_still_member 3 world0 node1 seed_node
           [mkNodeInfo "seed" "10.0.0.1"; mkNodeInfo "node1" "10.0.0.2"]).
  - reflexivity.
  - vm_compute. tauto.
  - simpl. tauto.
Defined.

(** A decommission whose membership query still lists the target does
    not end with an error named DecommissionVerificationError. *)
Lemma still_member_error_is_not_named :
  target_node world0 = Some node1 /\
  In (EvNodeInfo seed_node
        (Returns [mkNodeInfo "seed" "10.0.0.1"; mkNodeInfo "node1" "10.0.0.2"]))
     (events_since world0 (snd (disrupt_nodetool_decommission env_still_member 3 world0))) /\
  In (private_ip_address node1)
     (map info_ip [mkNodeInfo "seed" "10.0.0.1"; mkNodeInfo "node1" "10.0.0.2"]) /\
  ~ (exists e,
       fst (disrupt_nodetool_decommission env_still_member 3 world0) = Raise e /\
       exc_class e = "DecommissionVerificationError").
Proof.
  split; [reflexivity |]. split; [vm_compute; tauto |]. split; [simpl; tauto |].
  intros [e [H Hc]]. vm_compute in H. inversion H; subst e. discriminate Hc.
Qed.

Lemma decommission_replaces_target_witness :
  length (cluster_nodes (snd (disrupt_nodetool_decommission env0 3 world0)))
    = length (cluster_nodes world0) /\
  ~ In node1 (cluster_nodes (snd (disrupt_nodetool_decommission env0 3 world0))).
Proof.
  destruct (decommission_replaces_target env0 3 world0
              (snd (disrupt_nodetool_decommission env0 3 world0)) node1)
    as [Hlen [Hout _]].
  - reflexivity.
  - split.
    + repeat constructor; simpl; intuition discriminate.
    + simpl. intros x [<- | [<- | [<- | []]]]; simpl; lia.
  - reflexivity.
  - split; assumption.
Defined.

(** ** The dispatcher and the strategies *)

Section Dispatcher.

Variable env : Env.

Lemma log_time_elapsed_unfold c (method : M unit) w :
  log_time_elapsed env c method w =
  match method (started env c w) with
  | (Ok a, w1) => (Ok a, finished env c w w1)
  | (Raise e, w1) => (Raise e, finished env c w w1)
  | (Blocked, w1) => (Blocked, w1)
  | (OutOfFuel, w1) => (OutOfFuel, w1)
  end.
Proof.
  unfold log_time_elapsed, started, finished.
  unfold bind at 1, log at 1, modify at 1.
  unfold bind at 1, time_time at 1.
  unfold bind at 1, try_finally. world_simpl.
  destruct (method _) as [[a | e | |] w1]; reflexivity.
Qed.

Lemma disrupt_methods_eq :
  disrupt_methods =
  [ Method m_disrupt_destroy_data_then_rebuild;
    Method m_disrupt_destroy_data_then_repair;
    Method m_disrupt_kill_scylla_daemon;
    Method m_disrupt_nodetool_decommission;
    Method m_disrupt_nodetool_drain;
    Method m_disrupt_stop_start ].
Proof. reflexivity. Qed.

(** The choice among the candidates always succeeds, at the index drawn
    below their number. *)
Lemma random_choice_disrupt_methods w :
  exists chosen,
    nth_error disrupt_methods (env_random env (rng_pos w) mod 6) = Some chosen /\
    random_choice env disrupt_methods w = (Ok chosen, with_rng_pos (S (rng_pos w)) w).
Proof.
  destruct (random_choice env disrupt_methods w) as [r w1] eqn:E.
  pose proof E as E'. apply random_choice_inv in E'.
  destruct E' as [[Hnil _] | [x [-> [-> Hnth]]]].
  - rewrite disrupt_methods_eq in Hnil. discriminate Hnil.
  - exists x. split; [exact Hnth | reflexivity].
Qed.

Lemma call_random_disrupt_method_unfold fuel w :
  exists chosen,
    nth_error disrupt_methods (env_random env (rng_pos w) mod 6) = Some chosen /\
    call_random_disrupt_method env fuel w =
    try_except_Exception
      (call_member env fuel chosen)
      (fun e => log_exc_info ERROR "Disrupt method %s failed" [AMember chosen] e)
      (with_rng_pos (S (rng_pos w)) w).
Proof.
  destruct (random_choice_disrupt_methods w) as [chosen [Hnth Hc]].
  exists chosen. split; [exact Hnth |].
  unfold call_random_disrupt_method. unfold bind at 1. rewrite Hc. reflexivity.
Qed.

(** C7. The candidates of the dynamic strategy are the six [disrupt_*]
    methods, each once: a member of the object is a candidate exactly
    when its name is one of the six user-facing disruptions, so the two
    repair helpers and every other member are left out.  The method
    invoked is the candidate at the index drawn below six, the number
    of candidates, and of the six values of that index exactly one
    picks any given candidate: a uniform index is a uniform choice. *)
Theorem call_random_disrupt_method_candidates :
  disrupt_methods =
    [ Method m_disrupt_destroy_data_then_rebuild;
      Method m_disrupt_destroy_data_then_repair;
      Method m_disrupt_kill_scylla_daemon;
      Method m_disrupt_nodetool_decommission;
      Method m_disrupt_nodetool_drain;
      Method m_disrupt_stop_start ] /\
  NoDup disrupt_methods /\
  ~ In (Method m_repair_nodetool_repair) disrupt_methods /\
  ~ In (Method m_repair_nodetool_rebuild) disrupt_methods /\
  (forall name x,
     In (name, x) getmembers -> (In x disrupt_methods <-> In name disruption_names)) /\
  (forall x,
     In x disrupt_methods ->
     length (filter (fun i => selects i x) (seq 0 (length disrupt_methods))) = 1) /\
  (forall fuel w,
     exists chosen,
       nth_error disrupt_methods (env_random env (rng_pos w) mod length disrupt_methods)
         = Some chosen /\
       call_random_disrupt_method env fuel w =
       try_except_Exception
         (call_member env fuel chosen)
         (fun e => log_exc_info ERROR "Disrupt method %s failed" [AMember chosen] e)
         (with_rng_pos (S (rng_pos w)) w)).
Proof.
  split; [reflexivity |].
  split; [rewrite disrupt_methods_eq; repeat constructor; cbn; intuition discriminate |].
  split; [rewrite disrupt_methods_eq; cbn; intuition discriminate |].
  split; [rewrite disrupt_methods_eq; cbn; intuition discriminate |].
  split.
  - intros name x H. rewrite disrupt_methods_eq. vm_compute in H.
    repeat (destruct H as [H | H];
            [inversion H; subst; clear H; unfold disruption_names; cbn;
             split; intros Hx;
             repeat (destruct Hx as [Hx | Hx]; try discriminate Hx); tauto |]).
    contradiction.
  - split; [| intros fuel w; apply call_random_disrupt_method_unfold].
    intros x H. rewrite disrupt_methods_eq in H. cbn in H.
    repeat (destruct H as [H | H]; [subst x; reflexivity |]).
    contradiction.
Qed.

(** C1. Dynamic strategy: when the method the dispatcher has drawn
    raises an exception [e] that is an [Exception], the dispatcher ends
    normally, having logged at level ERROR the method and [e] as
    [exc_info], and so does [ChaosMonkey.disrupt], after which the cycle
    of the scheduling loop goes on with its termination checkpoint; no
    [Exception] ever comes out of [ChaosMonkey.disrupt].  Fixed
    strategies: when the
    catalog entry of the strategy raises [e], the strategy's [disrupt]
    raises the same [e], after the duration record of the decorator. *)
Theorem chaos_catches_fixed_strategies_propagate (fuel : nat) :
  (forall w m w0 e w1,
     random_choice env disrupt_methods w = (Ok m, w0) ->
     call_member env fuel m w0 = (Raise e, w1) ->
     isinstance_Exception e = true ->
     call_random_disrupt_method env fuel w
       = (Ok tt, emit (EvLog ERROR "Disrupt method %s failed" [AMember m] (Some e)) w1)) /\
  (forall w m w0 e w1,
     random_choice env disrupt_methods (started env ChaosMonkey w) = (Ok m, w0) ->
     call_member env fuel m w0 = (Raise e, w1) ->
     isinstance_Exception e = true ->
     disrupt env fuel ChaosMonkey w
       = (Ok tt, finished env ChaosMonkey w
                   (emit (EvLog ERROR "Disrupt method %s failed" [AMember m] (Some e)) w1))) /\
  (forall cycles interval arg w m w0 e w1,
     random_choice env disrupt_methods
       (started env ChaosMonkey (emit (EvSleep interval) w)) = (Ok m, w0) ->
     call_member env fuel m w0 = (Raise e, w1) ->
     isinstance_Exception e = true ->
     run_loop env (S cycles) fuel ChaosMonkey interval arg w
       = (stop <- check_termination env arg ;;
          if stop then ret tt
          else set_target_node env ;; run_loop env cycles fuel ChaosMonkey interval arg)
           (finished env ChaosMonkey (emit (EvSleep interval) w)
              (emit (EvLog ERROR "Disrupt method %s failed" [AMember m] (Some e)) w1))) /\
  (forall w e,
     fst (disrupt env fuel ChaosMonkey w) = Raise e -> isinstance_Exception e = false) /\
  (forall c m w e w1,
     fixed_action c = Some m ->
     call_member env fuel m (started env c w) = (Raise e, w1) ->
     disrupt env fuel c w = (Raise e, finished env c w w1)).
Proof.
  assert (Hdisp : forall w m w0 e w1,
     random_choice env disrupt_methods w = (Ok m, w0) ->
     call_member env fuel m w0 = (Raise e, w1) ->
     isinstance_Exception e = true ->
     call_random_disrupt_method env fuel w
       = (Ok tt, emit (EvLog ERROR "Disrupt method %s failed" [AMember m] (Some e)) w1)).
  { intros w m w0 e w1 Hc Hm He.
    unfold call_random_disrupt_method. unfold bind at 1. rewrite Hc.
    unfold try_except_Exception. rewrite Hm, He. reflexivity. }
  assert (Hchaos : forall w m w0 e w1,
     random_choice env disrupt_methods (started env ChaosMonkey w) = (Ok m, w0) ->
     call_member env fuel m w0 = (Raise e, w1) ->
     isinstance_Exception e = true ->
     disrupt env fuel ChaosMonkey w
       = (Ok tt, finished env ChaosMonkey w
                   (emit (EvLog ERROR "Disrupt method %s failed" [AMember m] (Some e)) w1))).
  { intros w m w0 e w1 Hc Hm He. cbn [disrupt].
    rewrite log_time_elapsed_unfold, (Hdisp _ _ _ _ _ Hc Hm He). reflexivity. }
  split; [exact Hdisp |]. split; [exact Hchaos |]. split; [| split].
  - intros cycles interval arg w m w0 e w1 Hc Hm He. cbn [run_loop].
    unfold bind at 1, time_sleep, modify. unfold bind at 1.
    rewrite (Hchaos _ _ _ _ _ Hc Hm He). reflexivity.
  - intros w e. cbn [disrupt]. rewrite log_time_elapsed_unfold.
    destruct (call_random_disrupt_method_unfold fuel (started env ChaosMonkey w))
      as [chosen [_ ->]].
    unfold try_except_Exception.
    destruct (call_member env fuel chosen _) as [[[] | e' | |] w1]; cbn [fst];
      try discriminate.
    destruct (isinstance_Exception e') eqn:He'.
    + unfold log_exc_info, modify. cbn [fst]. discriminate.
    + cbn [fst]. intros H. inversion H; subst. exact He'.
  - intros c m w e w1 Hfix Hm.
    destruct c; cbn [fixed_action] in Hfix; inversion Hfix; subst m;
      cbn [disrupt]; rewrite log_time_elapsed_unfold;
      cbn [call_member] in Hm; rewrite Hm; reflexivity.
Qed.

End Dispatcher.

(** With every command failing: the dynamic strategy draws the
    corrupt-then-rebuild disruption, whose first command fails; the
    failure is logged and [disrupt] ends normally, while the drain of
    the fixed strategy lets the same failure out. *)
Lemma chaos_catches_fixed_strategies_propagate_witness :
  disrupt env_failing 0 ChaosMonkey world0
    = (Ok tt,
       finished env_failing ChaosMonkey world0
         (emit (EvLog ERROR "Disrupt method %s failed"
                      [AMember (Method m_disrupt_destroy_data_then_rebuild)]
                      (Some (OtherError "CmdError" true)))
               (snd (disrupt_destroy_data_then_rebuild env_failing
                       (with_rng_pos 1 (started env_failing ChaosMonkey world0)))))) /\
  disrupt env_failing 0 DrainerMonkey world0
    = (Raise (OtherError "CmdError" true),
       finished env_failing DrainerMonkey world0
         (snd (disrupt_nodetool_drain env_failing (started env_failing DrainerMonkey world0)))).
Proof.
  destruct (chaos_catches_fixed_strategies_propagate env_failing 0)
    as [_ [Hchaos [_ [_ Hfixed]]]].
  split.
  - apply (Hchaos world0 (Method m_disrupt_destroy_data_then_rebuild)
             (with_rng_pos 1 (started env_failing ChaosMonkey world0))
             (OtherError "CmdError" true)); reflexivity.
  - apply (Hfixed DrainerMonkey (Method m_disrupt_nodetool_drain) world0
             (OtherError "CmdError" true)); reflexivity.
Defined.

(** * Further properties of the module *)

(** ** Disruptions that only add to the history *)

Lemma history_only_refl w : history_only w w.
Proof.
  exists []. rewrite app_nil_r. split; [destruct w; reflexivity | reflexivity].
Qed.

Lemma history_only_trans w1 w2 w3 :
  history_only w1 w2 -> history_only w2 w3 -> history_only w1 w3.
Proof.
  intros [n1 [-> Hf1]] [n2 [-> Hf2]]. exists (n1 ++ n2). world_simpl.
  rewrite app_assoc, forallb_app, Hf1, Hf2. auto.
Qed.

Lemma history_only_emit ev w : is_action_event ev = true -> history_only w (emit ev w).
Proof.
  intros H. exists [ev]. split; [reflexivity |]. cbn. rewrite H. reflexivity.
Qed.

(** What [history_only] says field by field. *)
Lemma history_only_fields w w' :
  history_only w w' ->
  cluster_nodes w' = cluster_nodes w /\ target_node w' = target_node w /\
  termination_event w' = termination_event w /\ rng_pos w' = rng_pos w /\
  next_node_id w' = next_node_id w /\
  exists new, trace w' = trace w ++ new /\ forallb is_action_event new = true.
Proof.
  intros [new [-> Hf]]. world_simpl. repeat split; eauto.
Qed.

Lemma only_history_ret {A} (a : A) : only_history (ret a).
Proof. intros w r w' H. inversion H. apply history_only_refl. Qed.

Lemma only_history_raise {A} (e : exc) : only_history (@raise A e).
Proof. intros w r w' H. inversion H. apply history_only_refl. Qed.

Lemma only_history_get {A} (proj : World -> A) : only_history (get proj).
Proof. intros w r w' H. inversion H. apply history_only_refl. Qed.

Lemma only_history_deref {A} (x : option A) : only_history (deref x).
Proof. destruct x; [apply only_history_ret | apply only_history_raise]. Qed.

Lemma only_history_bind {A B} (m : M A) (f : A -> M B) :
  only_history m -> (forall a, only_history (f a)) -> only_history (bind m f).
Proof.
  intros Hm Hf w r w' H. apply bind_inv in H.
  destruct H as [[a [w1 [H1 H2]]] | [[e [H1 _]] | [[H1 _] | [H1 _]]]];
    try (eapply Hm; eassumption).
  eapply history_only_trans; [eapply Hm | eapply Hf]; eassumption.
Qed.

Section OnlyHistory.

Variable env : Env.

Lemma only_history_log lvl fmt args : only_history (log lvl fmt args).
Proof. intros w r w' H. inversion H. apply history_only_emit. reflexivity. Qed.

Lemma only_history_call c : only_history (call env c).
Proof.
  intros w r w' H. unfold call in H.
  destruct (env_call env (trace w) c); inversion H; apply history_only_emit; reflexivity.
Qed.

Lemma only_history_remoter_run n cmd ign : only_history (remoter_run env n cmd ign).
Proof.
  intros w r w' H. unfold remoter_run in H.
  destruct (env_exec env (trace w) n cmd) as [status dur].
  destruct ((status =? 0)%Z || ign); inversion H; apply history_only_emit; reflexivity.
Qed.

Create HintDb only_history.

#[local] Hint Resolve only_history_ret only_history_raise only_history_get
  only_history_deref only_history_log only_history_call only_history_remoter_run
  : only_history.

Ltac only_history_steps :=
  repeat first
    [ solve [ auto with only_history ]
    | apply only_history_bind; [| intros ] ].

Lemma only_history_disrupt_nodetool_drain : only_history (disrupt_nodetool_drain env).
Proof. unfold disrupt_nodetool_drain. only_history_steps. Qed.

Lemma only_history_disrupt_stop_start : only_history (disrupt_stop_start env).
Proof. unfold disrupt_stop_start. only_history_steps. Qed.

Lemma only_history_disrupt_kill_scylla_daemon :
  only_history (disrupt_kill_scylla_daemon env).
Proof. unfold disrupt_kill_scylla_daemon. only_history_steps. Qed.

Lemma only_history__destroy_data : only_history (_destroy_data env).
Proof.
  unfold _destroy_data. pose proof only_history_disrupt_kill_scylla_daemon.
  only_history_steps.
Qed.

Lemma only_history_repair_nodetool_repair : only_history (repair_nodetool_repair env).
Proof. unfold repair_nodetool_repair. only_history_steps. Qed.

Lemma only_history_rebuild_each nodes : only_history (rebuild_each env nodes).
Proof.
  induction nodes as [| node rest IH]; cbn [rebuild_each]; only_history_steps.
Qed.

Lemma only_history_repair_nodetool_rebuild : only_history (repair_nodetool_rebuild env).
Proof.
  unfold repair_nodetool_rebuild. pose proof only_history_rebuild_each.
  only_history_steps.
Qed.

Lemma only_history_disrupt_destroy_data_then_repair :
  only_history (disrupt_destroy_data_then_repair env).
Proof.
  unfold disrupt_destroy_data_then_repair.
  pose proof only_history__destroy_data. pose proof only_history_repair_nodetool_repair.
  only_history_steps.
Qed.

Lemma only_history_disrupt_destroy_data_then_rebuild :
  only_history (disrupt_destroy_data_then_rebuild env).
Proof.
  unfold disrupt_destroy_data_then_rebuild.
  pose proof only_history__destroy_data. pose proof only_history_repair_nodetool_rebuild.
  only_history_steps.
Qed.

Lemma only_history_call_member fuel x :
  x <> Method m_disrupt_nodetool_decommission -> only_history (call_member env fuel x).
Proof.
  intros Hx. destruct x as [m | | b]; try apply only_history_raise.
  destruct m; cbn [call_member]; try apply only_history_raise.
  - apply only_history_disrupt_nodetool_drain.
  - congruence.
  - apply only_history_disrupt_stop_start.
  - apply only_history_disrupt_kill_scylla_daemon.
  - apply only_history_disrupt_destroy_data_then_repair.
  - apply only_history_disrupt_destroy_data_then_rebuild.
Qed.

(** X1. Every disruption other than the decommission, and each of the
    helpers [_destroy_data], [repair_nodetool_repair] and
    [repair_nodetool_rebuild], leaves the object as it found it, however
    it ends: the node list, the target, the termination event and the
    generator are untouched, and what it adds to the history are events
    of a disruption (no wait, no poll). *)
Theorem only_decommission_changes_the_object (fuel : nat) (w : World) :
  (forall x, x <> Method m_disrupt_nodetool_decommission ->
             history_only w (snd (call_member env fuel x w))) /\
  history_only w (snd (_destroy_data env w)) /\
  history_only w (snd (repair_nodetool_repair env w)) /\
  history_only w (snd (repair_nodetool_rebuild env w)).
Proof.
  split; [| split; [| split]].
  - intros x Hx. destruct (call_member env fuel x w) as [r w'] eqn:E.
    exact (only_history_call_member fuel x Hx _ _ _ E).
  - destruct (_destroy_data env w) as [r w'] eqn:E.
    exact (only_history__destroy_data _ _ _ E).
  - destruct (repair_nodetool_repair env w) as [r w'] eqn:E.
    exact (only_history_repair_nodetool_repair _ _ _ E).
  - destruct (repair_nodetool_rebuild env w) as [r w'] eqn:E.
    exact (only_history_repair_nodetool_rebuild _ _ _ E).
Qed.

End OnlyHistory.

(** ** Drain, and corruption followed by repair *)

Section Sequences.

Variable env : Env.

(** X2. With a target [n] set, the drain logs and runs
    [nodetool -h localhost drain] on [n]; the node is restarted exactly
    when that command exited with status 0, and the action then ends
    the way [restart] ended.  After a failed drain nothing more is done
    to the node and the failure comes out. *)
Theorem drain_restarts_only_after_drain (w : World) (n : Node) :
  target_node w = Some n ->
  let h0 := trace w ++ [EvLog INFO "Drain %s and restart it" [ANode (Some n)] None] in
  let status := fst (env_exec env h0 n "nodetool -h localhost drain") in
  let dur := snd (env_exec env h0 n "nodetool -h localhost drain") in
  let h1 := h0 ++ [EvRun n "nodetool -h localhost drain" false
                         (mkCmdResult "nodetool -h localhost drain" dur status)] in
  let restart := env_call env h1 (Restart n) in
  let r := fst (disrupt_nodetool_drain env w) in
  let h := trace (snd (disrupt_nodetool_drain env w)) in
  if (status =? 0)%Z
  then h = h1 ++ [EvCall (Restart n) restart] /\ r = outcome_result restart
  else h = h1 /\ r = Raise (OtherError "CmdError" true).
Proof.
  intros Ht. cbv zeta.
  unfold disrupt_nodetool_drain, bind, get, log, modify, deref, ret, remoter_run, call.
  rewrite Ht. world_simpl.
  destruct (env_exec env _ n "nodetool -h localhost drain") as [status dur].
  cbn [fst snd]. rewrite orb_false_r.
  destruct (status =? 0)%Z; world_simpl; cbn [fst snd].
  - destruct (env_call env _ (Restart n)) as [[] | e |]; cbn [fst snd outcome_result];
      world_simpl; auto.
  - auto.
Qed.

End Sequences.

Lemma drain_restarts_only_after_drain_witness :
  trace (snd (disrupt_nodetool_drain env_failing world0)) =
    [EvLog INFO "Drain %s and restart it" [ANode (Some node1)] None;
     EvRun node1 "nodetool -h localhost drain" false
           (mkCmdResult "nodetool -h localhost drain" 1 1)] /\
  fst (disrupt_nodetool_drain env_failing world0) = Raise (OtherError "CmdError" true).
Proof.
  exact (drain_restarts_only_after_drain env_failing world0 node1 eq_refl).
Defined.

Section CorruptThenRepair.

Variable env : Env.

(** Takes the next call on the outside (the one whose history holds no
    call still to be looked at) and splits on how it ended. *)
Ltac next_call :=
  match goal with
  | |- context [env_exec env ?h ?n ?c] =>
      lazymatch h with
      | context [env_exec] => fail
      | context [env_call] => fail
      | _ =>
          let s := fresh "status" in
          let d := fresh "dur" in
          destruct (env_exec env h n c) as [s d];
          destruct (Z.eqb_spec s 0)
      end
  | |- context [env_call env ?h ?c] =>
      lazymatch h with
      | context [env_exec] => fail
      | context [env_call] => fail
      | _ => destruct (env_call env h c) as [[] | ? |]
      end
  end;
  world_simpl; cbn [fst snd orb].

(** X3. Corruption followed by repair, with a target [n] set, goes
    step by step and stops at the first step that fails: the corruption
    script is run only after it was sent and made executable, the
    database is killed only after the script exited with status 0, and
    [nodetool repair] is run only after the database was seen down and
    then up again.  When the action ends normally, the repair was run
    once, on the target. *)
Theorem repair_only_after_recovery (w : World) (n : Node) :
  target_node w = Some n ->
  let r := fst (disrupt_destroy_data_then_repair env w) in
  let new := events_since w (snd (disrupt_destroy_data_then_repair env w)) in
  (ran_on "/tmp/break_scylla.sh" new <> [] ->
     In (EvCall (SendFiles n (env_data_path env "break_scylla.sh") "/tmp/break_scylla.sh")
                (Returns tt)) new /\
     exists dur, In (EvRun n "chmod +x /tmp/break_scylla.sh" false
                           (mkCmdResult "chmod +x /tmp/break_scylla.sh" dur 0)) new) /\
  (ran_on "sudo pkill -9 scylla" new <> [] ->
     exists dur, In (EvRun n "/tmp/break_scylla.sh" false
                           (mkCmdResult "/tmp/break_scylla.sh" dur 0)) new) /\
  (ran_on "nodetool -h localhost repair" new <> [] ->
     In (EvCall (WaitDbDown n) (Returns tt)) new /\
     In (EvCall (WaitDbUp n) (Returns tt)) new) /\
  (r = Ok tt -> ran_on "nodetool -h localhost repair" new = [n]).
Proof.
  intros Ht. cbv zeta.
  unfold disrupt_destroy_data_then_repair, _destroy_data, disrupt_kill_scylla_daemon,
    repair_nodetool_repair, bind, get, log, modify, deref, ret, remoter_run, call.
  repeat (progress (world_simpl; rewrite ?Ht; cbn beta iota)).
  repeat (next_call; repeat (progress (world_simpl; rewrite ?Ht; cbn beta iota)));
    (erewrite events_since_app by history);
    cbn [ran_on String.eqb Ascii.eqb Bool.eqb];
    repeat split; intros; try congruence; try discriminate; subst; cbn [In]; eauto 20.
Qed.

End CorruptThenRepair.

Lemma repair_only_after_recovery_witness :
  fst (disrupt_destroy_data_then_repair env0 world0) = Ok tt /\
  ran_on "nodetool -h localhost repair"
         (events_since world0 (snd (disrupt_destroy_data_then_repair env0 world0))) = [node1].
Proof.
  destruct (repair_only_after_recovery env0 world0 node1 eq_refl) as [_ [_ [_ H]]].
  split; [reflexivity | apply H; reflexivity].
Defined.

(** ** The rebuild of every node *)

Lemma ran_on_app cmd l1 l2 : ran_on cmd (l1 ++ l2) = ran_on cmd l1 ++ ran_on cmd l2.
Proof.
  induction l1 as [| ev l1 IH]; [reflexivity |].
  destruct ev; cbn [ran_on app]; try exact IH.
  destruct (String.eqb cmd0 cmd); [cbn; rewrite IH |]; auto.
Qed.

Section Rebuild.

Variable env : Env.

Lemma rebuild_each_spec nodes :
  forall w r w',
    rebuild_each env nodes w = (r, w') ->
    exists new, trace w' = trace w ++ new /\
      ((r = Ok tt /\ ran_on "nodetool -h localhost rebuild" new = nodes /\
        length new = 2 * length nodes) \/
       (r = Raise (OtherError "CmdError" true) /\
        exists done failed rest pre res,
          nodes = done ++ failed :: rest /\
          ran_on "nodetool -h localhost rebuild" new = done ++ [failed] /\
          new = pre ++ [EvRun failed "nodetool -h localhost rebuild" false res] /\
          exit_status res <> 0%Z)).
Proof.
  induction nodes as [| node rest IH]; intros w r w' H.
  - inversion H; subst. exists []. rewrite app_nil_r. split; [reflexivity |].
    left. auto.
  - cbn [rebuild_each] in H. unfold bind at 1, remoter_run at 1 in H.
    destruct (env_exec env (trace w) node "nodetool -h localhost rebuild")
      as [status dur].
    rewrite orb_false_r in H. destruct (Z.eqb_spec status 0) as [-> | Hst].
    + unfold bind at 1, log at 1, modify at 1 in H. apply IH in H.
      destruct H as [new [Hnew Hcase]]. world_simpl_in Hnew.
      rewrite <- !app_assoc in Hnew. cbn [app] in Hnew.
      eexists. split; [exact Hnew |].
      destruct Hcase as [[-> [Hran Hlen]] | [-> [done [failed [rest' [pre [res [Hn [Hran [Hp Hs]]]]]]]]]].
      * left. split; [reflexivity |]. cbn [ran_on String.eqb Ascii.eqb Bool.eqb].
        rewrite Hran. split; [reflexivity |]. cbn [length]. lia.
      * right. split; [reflexivity |].
        exists (node :: done), failed, rest'. eexists. exists res.
        split; [cbn; rewrite Hn; reflexivity |].
        split; [cbn [ran_on String.eqb Ascii.eqb Bool.eqb]; rewrite Hran; reflexivity |].
        split; [rewrite Hp; rewrite !app_comm_cons; reflexivity | exact Hs].
    + inversion H; subst. eexists. split; [reflexivity |].
      right. split; [reflexivity |].
      exists [], node, rest, []. eexists. split; [reflexivity |].
      split; [reflexivity |]. split; [reflexivity | exact Hst].
Qed.

(** X4. The rebuild goes through the cluster's nodes in the order of
    the node list, seeds and target alike, running
    [nodetool -h localhost rebuild] on each and logging its duration.
    It ends normally only after every node was rebuilt; the first
    command that exits with a status other than 0 ends it with that
    failure, and no node after the failing one is touched. *)
Theorem rebuild_stops_at_first_failure (w : World) :
  let r := fst (repair_nodetool_rebuild env w) in
  let new := events_since w (snd (repair_nodetool_rebuild env w)) in
  (r = Ok tt /\ ran_on "nodetool -h localhost rebuild" new = cluster_nodes w /\
   length new = 2 * length (cluster_nodes w)) \/
  (r = Raise (OtherError "CmdError" true) /\
   exists done failed rest pre res,
     cluster_nodes w = done ++ failed :: rest /\
     ran_on "nodetool -h localhost rebuild" new = done ++ [failed] /\
     new = pre ++ [EvRun failed "nodetool -h localhost rebuild" false res] /\
     exit_status res <> 0%Z).
Proof.
  cbv zeta.
  change (repair_nodetool_rebuild env w) with (rebuild_each env (cluster_nodes w) w).
  destruct (rebuild_each env (cluster_nodes w) w) as [r w'] eqn:E.
  apply rebuild_each_spec in E. destruct E as [new [Hnew Hcase]].
  cbn [fst snd]. rewrite (events_since_app _ _ _ Hnew). exact Hcase.
Qed.

End Rebuild.

(** ** Every way a decommission can end *)

Lemma list_remove_not_in x l : ~ In x l -> list_remove x l = None.
Proof.
  induction l as [| y l IH]; intros H; cbn; [reflexivity |].
  destruct (node_eqb y x) eqn:E.
  - apply node_eqb_eq in E. subst y. exfalso. apply H. left. reflexivity.
  - rewrite IH; [reflexivity |]. intros Hin. apply H. right. exact Hin.
Qed.

Lemma outcome_result_Ok o : outcome_result o = Ok tt -> o = Returns tt.
Proof. destruct o as [[] | e |]; cbn; intros H; congruence. Qed.

Section DecommissionOutcomes.

Variable env : Env.

(** The statements after the removal, however they end. *)
Lemma replacement_outcome n w6 r w' :
  (call env (Destroy n) ;;
   new_nodes <- add_nodes env 1 ;;
   call env (WaitForInit new_nodes)) w6 = (r, w') ->
  target_node w' = target_node w6 /\
  termination_event w' = termination_event w6 /\
  ((exists o, o <> Returns tt /\ r = outcome_result o /\
      trace w' = trace w6 ++ [EvCall (Destroy n) o] /\
      cluster_nodes w' = cluster_nodes w6 /\ next_node_id w' = next_node_id w6) \/
   (exists o, o <> Returns tt /\ r = outcome_result o /\
      trace w' = trace w6 ++ [EvCall (Destroy n) (Returns tt); EvCall (AddNodes 1) o] /\
      cluster_nodes w' = cluster_nodes w6 /\ next_node_id w' = next_node_id w6) \/
   (exists new_node o, r = outcome_result o /\
      trace w' = trace w6 ++ [EvCall (Destroy n) (Returns tt);
                              EvCall (AddNodes 1) (Returns tt);
                              EvCall (WaitForInit [new_node]) o] /\
      node_id new_node = next_node_id w6 /\
      next_node_id w' = next_node_id w6 + 1 /\
      cluster_nodes w' = cluster_nodes w6 ++ [new_node])).
Proof.
  unfold bind at 1, call at 1.
  destruct (env_call env (trace w6) (Destroy n)) as [[] | e |] eqn:Ed.
  2, 3: intros H; inversion H; subst; split; [reflexivity |]; split; [reflexivity |];
    left; match type of Ed with _ = ?o => exists o end;
    split; [discriminate | repeat split; reflexivity].
  unfold add_nodes. unfold bind at 1. unfold bind at 1, call at 1.
  destruct (env_call env (trace (emit _ w6)) (AddNodes 1)) as [[] | e |] eqn:Ea.
  2, 3: intros H; inversion H; subst; split; [reflexivity |]; split; [reflexivity |];
    right; left; match type of Ea with _ = ?o => exists o end;
    split; [discriminate |]; split; [reflexivity |]; split; [history |];
    split; reflexivity.
  unfold bind at 1, get at 1. unfold bind at 1, get at 1.
  unfold bind at 1, modify at 1. unfold ret at 1. unfold call.
  cbn [seq map]. world_simpl. rewrite <- !app_assoc. cbn [app].
  match goal with
  | |- context [env_call env ?h (WaitForInit [?x])] =>
      intros H; split; [| split]; [| | right; right; exists x, (env_call env h (WaitForInit [x]))];
      destruct (env_call env h (WaitForInit [x])) as [[] | e |] eqn:Ew
  end.
  all: inversion H; subst; world_simpl; rewrite <- ?app_assoc; cbn [app node_id outcome_result];
    try reflexivity.
  all: split; [reflexivity |]; split; [reflexivity |]; split; [lia |];
    split; reflexivity.
Qed.

(** Every way a decommission with the target [n] can end: either the
    node list was not touched and no call on the cluster or on a node
    was made, or the membership query had answered without the
    target's address, the target was taken out of the list, and the
    calls made after that are told one by one. *)
Lemma decommission_outcome fuel w n r w' :
  target_node w = Some n ->
  disrupt_nodetool_decommission env fuel w = (r, w') ->
  target_node w' = Some n /\
  termination_event w' = termination_event w /\
  exists new,
    trace w' = trace w ++ new /\ forallb is_action_event new = true /\
    ((cluster_nodes w' = cluster_nodes w /\ next_node_id w' = next_node_id w /\
      r <> Ok tt /\
      (forall c o, ~ In (EvCall c o) new) /\
      (forall v infos,
         In (EvNodeInfo v (Returns infos)) new ->
         ~ In (private_ip_address n) (map info_ip infos) ->
         r = Raise ValueError /\ ~ In n (cluster_nodes w))) \/
     (exists rest v infos pre calls,
        list_remove n (cluster_nodes w) = Some rest /\
        new = pre ++ EvNodeInfo v (Returns infos) :: calls /\
        (forall c o, ~ In (EvCall c o) pre) /\
        ~ In (private_ip_address n) (map info_ip infos) /\
        ((exists o, o <> Returns tt /\ r = outcome_result o /\
            calls = [EvCall (Destroy n) o] /\
            cluster_nodes w' = rest /\ next_node_id w' = next_node_id w) \/
         (exists o, o <> Returns tt /\ r = outcome_result o /\
            calls = [EvCall (Destroy n) (Returns tt); EvCall (AddNodes 1) o] /\
            cluster_nodes w' = rest /\ next_node_id w' = next_node_id w) \/
         (exists new_node o, r = outcome_result o /\
            calls = [EvCall (Destroy n) (Returns tt);
                     EvCall (AddNodes 1) (Returns tt);
                     EvCall (WaitForInit [new_node]) o] /\
            node_id new_node = next_node_id w /\
            next_node_id w' = next_node_id w + 1 /\
            cluster_nodes w' = rest ++ [new_node])))).
Proof.
  intros Ht. rewrite (disrupt_nodetool_decommission_unfold env fuel w n Ht).
  unfold remoter_run.
  destruct (env_exec env _ n "nodetool --host localhost decommission") as [status dur].
  assert (Hleaf : forall (r0 : Result unit) w0 new0,
            r0 <> Ok tt ->
            target_node w0 = Some n -> termination_event w0 = termination_event w ->
            cluster_nodes w0 = cluster_nodes w -> next_node_id w0 = next_node_id w ->
            trace w0 = trace w ++ new0 -> forallb is_action_event new0 = true ->
            (forall c o, ~ In (EvCall c o) new0) ->
            (forall v infos,
               In (EvNodeInfo v (Returns infos)) new0 ->
               ~ In (private_ip_address n) (map info_ip infos) ->
               r0 = Raise ValueError /\ ~ In n (cluster_nodes w)) ->
            (r0, w0) = (r, w') ->
            target_node w' = Some n /\
            termination_event w' = termination_event w /\
            exists new,
              trace w' = trace w ++ new /\ forallb is_action_event new = true /\
              ((cluster_nodes w' = cluster_nodes w /\ next_node_id w' = next_node_id w /\
                r <> Ok tt /\
                (forall c o, ~ In (EvCall c o) new) /\
                (forall v infos,
                   In (EvNodeInfo v (Returns infos)) new ->
                   ~ In (private_ip_address n) (map info_ip infos) ->
                   r = Raise ValueError /\ ~ In n (cluster_nodes w))) \/
               (exists rest v infos pre calls,
                  list_remove n (cluster_nodes w) = Some rest /\
                  new = pre ++ EvNodeInfo v (Returns infos) :: calls /\
                  (forall c o, ~ In (EvCall c o) pre) /\
                  ~ In (private_ip_address n) (map info_ip infos) /\
                  ((exists o, o <> Returns tt /\ r = outcome_result o /\
                      calls = [EvCall (Destroy n) o] /\
                      cluster_nodes w' = rest /\ next_node_id w' = next_node_id w) \/
                   (exists o, o <> Returns tt /\ r = outcome_result o /\
                      calls = [EvCall (Destroy n) (Returns tt); EvCall (AddNodes 1) o] /\
                      cluster_nodes w' = rest /\ next_node_id w' = next_node_id w) \/
                   (exists new_node o, r = outcome_result o /\
                      calls = [EvCall (Destroy n) (Returns tt);
                               EvCall (AddNodes 1) (Returns tt);
                               EvCall (WaitForInit [new_node]) o] /\
                      node_id new_node = next_node_id w /\
                      next_node_id w' = next_node_id w + 1 /\
                      cluster_nodes w' = rest ++ [new_node]))))).
  { intros r0 w0 new0 Hr0 H1 H2 H3 H4 H5 H6 H7 H8 Heq. inversion Heq; subst.
    split; [exact H1 |]. split; [exact H2 |]. exists new0.
    split; [exact H5 |]. split; [exact H6 |]. left. auto. }
  destruct ((status =? 0)%Z || false).
  2:{ apply Hleaf with (new0 := [EvLog INFO "Decommission %s" [ANode (Some n)] None;
                                 EvRun n "nodetool --host localhost decommission" false
                                       (mkCmdResult "nodetool --host localhost decommission"
                                                    dur status)]);
        try discriminate; try reflexivity; try exact Ht; try history;
        intros; cbn [In] in *; intuition discriminate. }
  match goal with
  | |- context [choose_verification_node env fuel ?w3] =>
      destruct (choose_verification_node env fuel w3) as [rv w4] eqn:Ec
  end.
  apply choose_verification_node_frame in Ec. destruct Ec as [q ->].
  destruct rv as [v0 | e | |];
    try (eapply Hleaf;
         [discriminate | exact Ht | reflexivity | reflexivity | reflexivity | history
         | reflexivity
         | intros; cbn [In] in *; intuition discriminate
         | intros; cbn [In] in *; intuition discriminate ]).
  unfold get_node_info_list.
  match goal with
  | |- context [env_node_info env ?h v0] =>
      destruct (env_node_info env h v0) as [infos0 | e |] eqn:Ei
  end;
    try (eapply Hleaf;
         [discriminate | exact Ht | reflexivity | reflexivity | reflexivity | history
         | reflexivity
         | intros; cbn [In] in *; intuition discriminate
         | intros; cbn [In] in *; intuition discriminate ]).
  destruct (str_in (private_ip_address n) (map info_ip infos0)) eqn:Es.
  - eapply Hleaf;
      [discriminate | exact Ht | reflexivity | reflexivity | reflexivity | history
      | reflexivity
      | intros; cbn [In] in *; intuition discriminate |].
    intros v infos Hin Hno. exfalso. apply Hno. apply str_in_In.
    cbn [In] in Hin. destruct Hin as [H | [H | [H | [H | []]]]]; try discriminate H.
    inversion H; subst. exact Es.
  - assert (Hno : ~ In (private_ip_address n) (map info_ip infos0)).
    { intros H. apply str_in_In in H. congruence. }
    world_simpl.
    destruct (list_remove n (cluster_nodes w)) as [rest |] eqn:Erm.
    + intros Hrun. apply replacement_outcome in Hrun.
      destruct Hrun as [Htg [Hte Hcases]]. world_simpl_in Htg. world_simpl_in Hte.
      split; [congruence |]. split; [exact Hte |].
      assert (Hshape : forall calls,
                trace w' = trace (with_nodes rest
                                    (emit (EvNodeInfo v0 (Returns infos0))
                                       (with_rng_pos q
                                          (emit (EvLog DEBUG "%s duration -> %s s"
                                                   [AStr "nodetool --host localhost decommission";
                                                    ANum dur] None)
                                             (emit (EvRun n "nodetool --host localhost decommission"
                                                      false
                                                      (mkCmdResult
                                                         "nodetool --host localhost decommission"
                                                         dur status))
                                                (emit (EvLog INFO "Decommission %s"
                                                         [ANode (Some n)] None) w))))))
                           ++ calls ->
                trace w' = trace w ++
                  [EvLog INFO "Decommission %s" [ANode (Some n)] None;
                   EvRun n "nodetool --host localhost decommission" false
                         (mkCmdResult "nodetool --host localhost decommission" dur status);
                   EvLog DEBUG "%s duration -> %s s"
                         [AStr "nodetool --host localhost decommission"; ANum dur] None]
                  ++ EvNodeInfo v0 (Returns infos0) :: calls).
      { intros calls ->. history. }
      assert (Hpre : forall c o,
                ~ In (EvCall c o)
                     [EvLog INFO "Decommission %s" [ANode (Some n)] None;
                      EvRun n "nodetool --host localhost decommission" false
                            (mkCmdResult "nodetool --host localhost decommission" dur status);
                      EvLog DEBUG "%s duration -> %s s"
                            [AStr "nodetool --host localhost decommission"; ANum dur] None]).
      { intros c o Hin. cbn [In] in Hin. intuition discriminate. }
      destruct Hcases as [[o [Ho [Hr [Htr [Hn Hnx]]]]]
                         | [[o [Ho [Hr [Htr [Hn Hnx]]]]]
                           | [new_node [o [Hr [Htr [Hid [Hnx Hn]]]]]]]];
        world_simpl_in Hn; world_simpl_in Hnx;
        (eexists; split; [apply Hshape; exact Htr |]; split; [reflexivity |]; right;
         exists rest, v0, infos0; eexists; eexists;
         split; [reflexivity |]; split; [reflexivity |]; split; [exact Hpre |];
         split; [exact Hno |]).
      * left. exists o. auto.
      * right. left. exists o. auto.
      * right. right. exists new_node, o. world_simpl_in Hid. auto.
    + eapply Hleaf;
        [discriminate | exact Ht | reflexivity | reflexivity | reflexivity | history
        | reflexivity
        | intros; cbn [In] in *; intuition discriminate |].
      intros v infos Hin Hno'. split; [reflexivity |].
      clear - Erm. intros Hin. revert Erm.
      induction (cluster_nodes w) as [| y l IH]; [destruct Hin |].
      cbn. destruct (node_eqb y n) eqn:E; [discriminate |].
      destruct (list_remove n l); [discriminate |]. intros _.
      destruct Hin as [-> | Hin]; [rewrite node_eqb_refl in E; discriminate |].
      exact (IH Hin eq_refl).
Qed.

(** X5. In a decommission with the target [n], nothing is done to the
    cluster before the membership check has passed: if the node list
    was changed, or any call on the cluster or on a node was made
    (destroy, add_nodes, wait_for_init), then the membership query had
    answered with a list that does not hold the target's address, and
    the target was in the node list. *)
Theorem decommission_acts_only_after_check (fuel : nat) (w : World) (n : Node) :
  target_node w = Some n ->
  (cluster_nodes (snd (disrupt_nodetool_decommission env fuel w)) <> cluster_nodes w \/
   exists c o,
     In (EvCall c o) (events_since w (snd (disrupt_nodetool_decommission env fuel w)))) ->
  In n (cluster_nodes w) /\
  exists v infos,
    In (EvNodeInfo v (Returns infos))
       (events_since w (snd (disrupt_nodetool_decommission env fuel w))) /\
    ~ In (private_ip_address n) (map info_ip infos).
Proof.
  intros Ht.
  destruct (disrupt_nodetool_decommission env fuel w) as [r w'] eqn:E. cbn [snd].
  destruct (decommission_outcome fuel w n r w' Ht E) as [_ [_ [new [Hnew [_ Hcase]]]]].
  rewrite (events_since_app _ _ _ Hnew).
  destruct Hcase as [[Hn [_ [_ [Hcalls _]]]] | [rest [v [infos [pre [calls [Hrm [-> [_ [Hno _]]]]]]]]]].
  - intros [H | [c [o H]]]; [contradiction | exfalso; exact (Hcalls c o H)].
  - intros _. split; [exact (proj1 (proj2 (list_remove_Some _ _ _ Hrm))) |].
    exists v, infos. split; [| exact Hno]. apply in_or_app. right. left. reflexivity.
Qed.

(** X6. When [destroy] of the target or [add_nodes] does not return
    normally in a decommission, the failure comes out of the action and
    the cluster is left one node short: the target was already taken out
    of the node list, no replacement was added, and [wait_for_init] was
    not called. *)
Theorem decommission_failed_replacement_leaves_gap
    (fuel : nat) (w : World) (n : Node) (c : Call) (o : Outcome unit) :
  target_node w = Some n ->
  In (EvCall c o) (events_since w (snd (disrupt_nodetool_decommission env fuel w))) ->
  (c = Destroy n \/ c = AddNodes 1) ->
  o <> Returns tt ->
  fst (disrupt_nodetool_decommission env fuel w) = outcome_result o /\
  list_remove n (cluster_nodes w)
    = Some (cluster_nodes (snd (disrupt_nodetool_decommission env fuel w))) /\
  length (cluster_nodes w)
    = S (length (cluster_nodes (snd (disrupt_nodetool_decommission env fuel w)))) /\
  forall l o',
    ~ In (EvCall (WaitForInit l) o')
         (events_since w (snd (disrupt_nodetool_decommission env fuel w))).
Proof.
  intros Ht.
  destruct (disrupt_nodetool_decommission env fuel w) as [r w'] eqn:E. cbn [fst snd].
  destruct (decommission_outcome fuel w n r w' Ht E) as [_ [_ [new [Hnew [_ Hcase]]]]].
  rewrite (events_since_app _ _ _ Hnew).
  destruct Hcase as [[_ [_ [_ [Hcalls _]]]] | [rest [v [infos [pre [calls [Hrm [-> [Hpre [_ Hshape]]]]]]]]]].
  - intros Hin. exfalso. exact (Hcalls c o Hin).
  - intros Hin Hc Ho. apply in_app_or in Hin.
    destruct Hin as [Hin | [Hin | Hin]]; [exfalso; exact (Hpre c o Hin) | discriminate Hin |].
    destruct Hshape as [[o1 [Ho1 [Hr [-> [Hn _]]]]]
                       | [[o1 [Ho1 [Hr [-> [Hn _]]]]]
                         | [new_node [o1 [Hr [-> _]]]]]].
    + destruct Hin as [Heq | []]. inversion Heq; subst o1.
      split; [exact Hr |]. rewrite Hn. split; [exact Hrm |].
      split; [exact (proj1 (list_remove_Some _ _ _ Hrm)) |].
      intros l o' H. apply in_app_or in H.
      destruct H as [H | [H | [H | []]]];
        [exact (Hpre _ _ H) | discriminate H | discriminate H].
    + destruct Hin as [Heq | [Heq | []]]; inversion Heq; subst; [congruence |].
      split; [reflexivity |]. split; [exact Hrm |].
      split; [exact (proj1 (list_remove_Some _ _ _ Hrm)) |].
      intros l o' H. apply in_app_or in H.
      destruct H as [H | [H | [H | [H | []]]]];
        [exact (Hpre _ _ H) | discriminate H | discriminate H | discriminate H].
    + exfalso. destruct Hin as [Heq | [Heq | [Heq | []]]]; inversion Heq; subst.
      * congruence.
      * congruence.
      * destruct Hc as [Hc | Hc]; discriminate Hc.
Qed.

(** X7. A target that is not in the cluster's node list (any more) is
    never decommissioned to the end: the action does not end normally,
    the node list stays as it is and no call on the cluster or on a
    node is made; if the membership check passes, the action ends with
    the ValueError of [list.remove]. *)
Theorem decommission_of_stale_target (fuel : nat) (w : World) (n : Node) :
  target_node w = Some n ->
  ~ In n (cluster_nodes w) ->
  fst (disrupt_nodetool_decommission env fuel w) <> Ok tt /\
  cluster_nodes (snd (disrupt_nodetool_decommission env fuel w)) = cluster_nodes w /\
  (forall c o,
     ~ In (EvCall c o) (events_since w (snd (disrupt_nodetool_decommission env fuel w)))) /\
  (forall v infos,
     In (EvNodeInfo v (Returns infos))
        (events_since w (snd (disrupt_nodetool_decommission env fuel w))) ->
     ~ In (private_ip_address n) (map info_ip infos) ->
     fst (disrupt_nodetool_decommission env fuel w) = Raise ValueError).
Proof.
  intros Ht Hout.
  destruct (disrupt_nodetool_decommission env fuel w) as [r w'] eqn:E. cbn [fst snd].
  destruct (decommission_outcome fuel w n r w' Ht E) as [_ [_ [new [Hnew [_ Hcase]]]]].
  rewrite (events_since_app _ _ _ Hnew).
  destruct Hcase as [[Hn [_ [Hr [Hcalls Hval]]]] | [rest [v [infos [pre [calls [Hrm _]]]]]]].
  - split; [exact Hr |]. split; [exact Hn |]. split; [exact Hcalls |].
    intros v infos Hin Hno. exact (proj1 (Hval v infos Hin Hno)).
  - rewrite (list_remove_not_in _ _ Hout) in Hrm. discriminate Hrm.
Qed.

End DecommissionOutcomes.

Lemma decommission_acts_only_after_check_witness :
  In node1 (cluster_nodes world0) /\
  exists v infos,
    In (EvNodeInfo v (Returns infos))
       (events_since world0 (snd (disrupt_nodetool_decommission env0 3 world0))) /\
    ~ In (private_ip_address node1) (map info_ip infos).
Proof.
  apply (decommission_acts_only_after_check env0 3 world0 node1 eq_refl).
  left. intros H. vm_compute in H. discriminate H.
Defined.

Lemma decommission_failed_replacement_leaves_gap_witness :
  fst (disrupt_nodetool_decommission env_destroy_fails 3 world0)
    = Raise (OtherError "CloudError" true) /\
  cluster_nodes (snd (disrupt_nodetool_decommission env_destroy_fails 3 world0))
    = [seed_node; node2].
Proof.
  destruct (decommission_failed_replacement_leaves_gap env_destroy_fails 3 world0 node1
              (Destroy node1) (Raises (OtherError "CloudError" true)) eq_refl)
    as [Hr _].
  - vm_compute. tauto.
  - left. reflexivity.
  - discriminate.
  - split; [exact Hr | reflexivity].
Defined.

Lemma decommission_of_stale_target_witness :
  fst (disrupt_nodetool_decommission env0 3 world_stale) = Raise ValueError /\
  cluster_nodes (snd (disrupt_nodetool_decommission env0 3 world_stale))
    = cluster_nodes world_stale.
Proof.
  destruct (decommission_of_stale_target env0 3 world_stale node1 eq_refl)
    as [_ [Hn [_ Hv]]].
  - simpl. intuition discriminate.
  - split; [| exact Hn].
    apply (Hv seed_node [mkNodeInfo "seed" "10.0.0.1"]).
    + vm_compute. tauto.
    + simpl. intuition discriminate.
Defined.

(** ** A cluster of the target alone *)

Section OnlyNode.

Variable env : Env.

Lemma resample_only_target t w0 :
  target_node w0 = Some t ->
  cluster_nodes w0 <> [] ->
  (forall x, In x (cluster_nodes w0) -> x = t) ->
  forall fuel p,
    resample_verification_node env fuel t (with_rng_pos p w0)
    = (OutOfFuel, with_rng_pos (p + fuel) w0).
Proof.
  intros Ht Hne Hall. induction fuel as [| fuel IH]; intros p;
    rewrite resample_verification_node_unfold;
    change (target_node (with_rng_pos p w0)) with (target_node w0);
    change (cluster_nodes (with_rng_pos p w0)) with (cluster_nodes w0);
    rewrite Ht; cbn [node_is]; rewrite node_eqb_refl.
  - rewrite Nat.add_0_r. reflexivity.
  - destruct (random_choice_nodes env w0 p Hne) as [v [Hd Hc]]. rewrite Hc.
    assert (v = t) by (apply Hall; exact (nth_error_In _ _ Hd)). subst v.
    rewrite IH. f_equal. f_equal. lia.
Qed.

(** X8. When the target is the only node of the cluster (every item of
    the node list is the target), the decommission never gets past the
    choice of the verification node: once the decommission command has
    succeeded, the loop that re-draws the verification node uses up any
    budget of iterations, however large.  The membership query is never
    made and the node list is left as it is. *)
Theorem decommission_of_only_node_never_ends (fuel : nat) (w : World) (n : Node) :
  target_node w = Some n ->
  cluster_nodes w <> [] ->
  (forall x, In x (cluster_nodes w) -> x = n) ->
  let status :=
    fst (env_exec env (trace w ++ [EvLog INFO "Decommission %s" [ANode (Some n)] None])
                  n "nodetool --host localhost decommission") in
  fst (disrupt_nodetool_decommission env fuel w)
    = (if (status =? 0)%Z then OutOfFuel else Raise (OtherError "CmdError" true)) /\
  ((status =? 0)%Z = true ->
   rng_pos (snd (disrupt_nodetool_decommission env fuel w)) = rng_pos w + 1 + fuel) /\
  cluster_nodes (snd (disrupt_nodetool_decommission env fuel w)) = cluster_nodes w /\
  forall v o,
    ~ In (EvNodeInfo v o)
         (events_since w (snd (disrupt_nodetool_decommission env fuel w))).
Proof.
  intros Ht Hne Hall. cbv zeta.
  destruct (disrupt_nodetool_decommission env fuel w) as [r w'] eqn:E.
  rewrite (disrupt_nodetool_decommission_unfold env fuel w n Ht) in E.
  unfold remoter_run in E. world_simpl_in E.
  destruct (env_exec env _ n "nodetool --host localhost decommission") as [status dur].
  cbn [fst snd]. rewrite orb_false_r in E. destruct (status =? 0)%Z.
  - unfold choose_verification_node in E. unfold bind at 1, get at 1 in E.
    unfold bind at 1 in E. world_simpl_in E.
    match type of E with
    | context [random_choice env (cluster_nodes w) ?w3] =>
        destruct (random_choice_nodes env w3 (rng_pos w) Hne) as [v [Hd Hc]];
        assert (Hv : v = n) by (apply Hall; exact (nth_error_In _ _ Hd)); subst v;
        assert (Hc' : random_choice env (cluster_nodes w) w3
                      = (Ok n, with_rng_pos (S (rng_pos w)) w3))
          by (rewrite <- Hc; reflexivity);
        rewrite Hc' in E;
        rewrite (resample_only_target n w3 Ht Hne Hall fuel (S (rng_pos w))) in E
    end.
    inversion E; subst. world_simpl.
    split; [reflexivity |]. split; [intros _; lia |]. split; [reflexivity |].
    intros v o Hin.
    erewrite events_since_app in Hin by history.
    cbn [In] in Hin. intuition discriminate.
  - inversion E; subst. world_simpl.
    split; [reflexivity |]. split; [discriminate |]. split; [reflexivity |].
    intros v o Hin.
    erewrite events_since_app in Hin by history.
    cbn [In] in Hin. intuition discriminate.
Qed.

End OnlyNode.

Lemma decommission_of_only_node_never_ends_witness :
  fst (disrupt_nodetool_decommission env0 1000 world_single) = OutOfFuel /\
  cluster_nodes (snd (disrupt_nodetool_decommission env0 1000 world_single))
    = cluster_nodes world_single.
Proof.
  destruct (decommission_of_only_node_never_ends env0 1000 world_single node1 eq_refl)
    as [Hr [_ [Hn _]]].
  - discriminate.
  - simpl. intros x [<- | []]. reflexivity.
  - split; [exact Hr | exact Hn].
Defined.

(** ** What every disruption keeps *)

Lemma keeps_refl w : keeps w w.
Proof.
  split; [reflexivity |]. split; [reflexivity |]. split; [auto |].
  exists []. rewrite app_nil_r. auto.
Qed.

Lemma keeps_trans w1 w2 w3 : keeps w1 w2 -> keeps w2 w3 -> keeps w1 w3.
Proof.
  intros [Ht1 [He1 [Hw1 [n1 [Hn1 Hf1]]]]] [Ht2 [He2 [Hw2 [n2 [Hn2 Hf2]]]]].
  split; [congruence |]. split; [congruence |]. split; [auto |].
  exists (n1 ++ n2). rewrite Hn2, Hn1, app_assoc, forallb_app, Hf1, Hf2. auto.
Qed.

Lemma history_only_keeps w w' : history_only w w' -> keeps w w'.
Proof.
  intros H. destruct (history_only_fields _ _ H) as [Hn [Ht [He [_ [Hx Hnew]]]]].
  split; [exact Ht |]. split; [exact He |]. split; [| exact Hnew].
  unfold well_formed. rewrite Hn, Hx. auto.
Qed.

Lemma keeps_emit ev w : is_action_event ev = true -> keeps w (emit ev w).
Proof. intros H. apply history_only_keeps, history_only_emit, H. Qed.

Lemma keeps_with_rng_pos k w : keeps w (with_rng_pos k w).
Proof.
  split; [reflexivity |]. split; [reflexivity |]. split; [auto |].
  exists []. rewrite app_nil_r. auto.
Qed.

Lemma list_remove_well_formed n w rest :
  list_remove n (cluster_nodes w) = Some rest ->
  well_formed w ->
  NoDup rest /\ (forall x, In x rest -> node_id x < next_node_id w).
Proof.
  intros Hrm [Hnd Hid]. destruct (list_remove_Some _ _ _ Hrm) as [_ [_ [Hsub Hout]]].
  split; [exact (proj2 (Hout Hnd)) |]. intros x Hx. apply Hid, Hsub, Hx.
Qed.

Section Keeps.

Variable env : Env.

Lemma keeps_disrupt_nodetool_decommission fuel w r w' :
  disrupt_nodetool_decommission env fuel w = (r, w') -> keeps w w'.
Proof.
  destruct (target_node w) as [n |] eqn:Ht.
  - intros E.
    destruct (decommission_outcome env fuel w n r w' Ht E)
      as [Ht' [He [new [Hnew [Hf Hcase]]]]].
    split; [congruence |]. split; [exact He |]. split; [| eauto].
    intros Hwf.
    destruct Hcase as [[Hn [Hx _]] | [rest [v [infos [pre [calls [Hrm [_ [_ [_ Hshape]]]]]]]]]].
    + unfold well_formed. rewrite Hn, Hx. exact Hwf.
    + destruct (list_remove_well_formed n w rest Hrm Hwf) as [Hnd Hid].
      destruct Hshape as [[o [_ [_ [_ [Hn Hx]]]]]
                         | [[o [_ [_ [_ [Hn Hx]]]]]
                           | [new_node [o [_ [_ [Hnew_id [Hx Hn]]]]]]]];
        unfold well_formed; rewrite Hn, Hx.
      * auto.
      * auto.
      * split.
        -- apply NoDup_app; [exact Hnd | repeat constructor; intros [] |].
           intros a Ha [<- | []]. apply Hid in Ha. lia.
        -- intros x Hx'. apply in_app_or in Hx'.
           destruct Hx' as [Hx' | [<- | []]]; [apply Hid in Hx' |]; lia.
  - unfold disrupt_nodetool_decommission. unfold bind at 1, get at 1. rewrite Ht.
    unfold bind at 1, log at 1, modify at 1. unfold bind at 1, deref at 1, raise at 1.
    intros E. inversion E; subst. apply keeps_emit. reflexivity.
Qed.

Lemma keeps_call_member fuel x w r w' :
  call_member env fuel x w = (r, w') -> keeps w w'.
Proof.
  destruct (Member_eq_dec x (Method m_disrupt_nodetool_decommission)) as [-> | Hx].
  - apply keeps_disrupt_nodetool_decommission.
  - intros E. apply history_only_keeps.
    exact (only_history_call_member env fuel x Hx _ _ _ E).
Qed.

Lemma keeps_call_random_disrupt_method fuel w r w' :
  call_random_disrupt_method env fuel w = (r, w') -> keeps w w'.
Proof.
  destruct (call_random_disrupt_method_unfold env fuel w) as [chosen [_ ->]].
  unfold try_except_Exception.
  destruct (call_member env fuel chosen _) as [rm w1] eqn:Em.
  apply keeps_call_member in Em.
  assert (Hk : keeps w w1)
    by (eapply keeps_trans; [apply keeps_with_rng_pos | exact Em]).
  destruct rm as [[] | e | |]; try (intros E; inversion E; subst; exact Hk).
  destruct (isinstance_Exception e); intros E; inversion E; subst; [| exact Hk].
  eapply keeps_trans; [exact Hk | apply keeps_emit; reflexivity].
Qed.

Lemma keeps_log_time_elapsed c (method : M unit) :
  (forall w r w', method w = (r, w') -> keeps w w') ->
  forall w r w', log_time_elapsed env c method w = (r, w') -> keeps w w'.
Proof.
  intros Hm w r w'. rewrite log_time_elapsed_unfold.
  destruct (method (started env c w)) as [rm w1] eqn:Em. apply Hm in Em.
  assert (Hs : keeps w (started env c w)).
  { unfold started. eapply keeps_trans; apply keeps_emit; reflexivity. }
  assert (Hk : keeps w w1) by (eapply keeps_trans; eassumption).
  assert (Hfin : keeps w (finished env c w w1)).
  { unfold finished. eapply keeps_trans; [exact Hk |].
    eapply keeps_trans; apply keeps_emit; reflexivity. }
  destruct rm as [[] | e | |]; intros E; inversion E; subst; assumption.
Qed.

Lemma keeps_disrupt fuel c w r w' : disrupt env fuel c w = (r, w') -> keeps w w'.
Proof.
  destruct c; cbn [disrupt].
  - intros E. inversion E. apply keeps_refl.
  - apply keeps_log_time_elapsed. intros w0 r0 w0' E.
    apply history_only_keeps. exact (only_history_disrupt_stop_start env _ _ _ E).
  - apply keeps_log_time_elapsed. intros w0 r0 w0' E.
    apply history_only_keeps. exact (only_history_disrupt_nodetool_drain env _ _ _ E).
  - apply keeps_log_time_elapsed. intros w0 r0 w0' E.
    apply history_only_keeps.
    exact (only_history_disrupt_destroy_data_then_repair env _ _ _ E).
  - apply keeps_log_time_elapsed. intros w0 r0 w0' E.
    apply history_only_keeps.
    exact (only_history_disrupt_destroy_data_then_rebuild env _ _ _ E).
  - apply keeps_log_time_elapsed. apply keeps_disrupt_nodetool_decommission.
  - apply keeps_log_time_elapsed. apply keeps_call_random_disrupt_method.
Qed.

End Keeps.

(** ** Invariants of the scheduling loop *)

Lemma sleeps_app l1 l2 : sleeps (l1 ++ l2) = sleeps l1 + sleeps l2.
Proof. unfold sleeps. rewrite filter_app, length_app. reflexivity. Qed.

Lemma polls_app l1 l2 : polls (l1 ++ l2) = polls l1 + polls l2.
Proof. unfold polls. rewrite filter_app, length_app. reflexivity. Qed.

Lemma action_events_counts l :
  forallb is_action_event l = true ->
  sleeps l = 0 /\ polls l = 0 /\ forall s, ~ In (EvSleep s) l.
Proof.
  induction l as [| ev l IH]; cbn [forallb]; intros H.
  - repeat split. intros s [].
  - apply andb_true_iff in H. destruct H as [Hev Hl].
    destruct (IH Hl) as [Hs [Hp Hno]].
    unfold sleeps, polls in *. destruct ev; try discriminate Hev; cbn;
      (split; [exact Hs |]; split; [exact Hp |]);
      intros s [H | H]; try discriminate H; exact (Hno s H).
Qed.

Section LoopInvariants.

Variable env : Env.

(** What the selection of a target changes. *)
Lemma set_target_node_step w r w' :
  set_target_node env w = (r, w') ->
  cluster_nodes w' = cluster_nodes w /\
  next_node_id w' = next_node_id w /\
  termination_event w' = termination_event w /\
  (r = Ok tt -> valid_target w') /\
  exists new, trace w' = trace w ++ new /\ forallb is_action_event new = true.
Proof.
  rewrite set_target_node_unfold.
  destruct (random_choice env (non_seed_nodes w) w) as [rc w1] eqn:Ec.
  apply random_choice_inv in Ec.
  destruct Ec as [[_ [-> ->]] | [x [-> [-> Hnth]]]]; intros E; inversion E; subst.
  - repeat split; try discriminate. exists []. rewrite app_nil_r. auto.
  - world_simpl. split; [reflexivity |]. split; [reflexivity |]. split; [reflexivity |].
    split; [| exists [EvLog INFO "Current Target: %s" [ANode (Some x)] None]; auto].
    intros _. exists x. split; [reflexivity |].
    apply nth_error_In in Hnth. unfold non_seed_nodes in Hnth.
    apply filter_In in Hnth. destruct Hnth as [Hin Hs].
    apply negb_true_iff in Hs. auto.
Qed.

Lemma run_loop_invariants cycles fuel c interval arg :
  forall w r w',
    run_loop env cycles fuel c interval arg w = (r, w') ->
    (well_formed w -> well_formed w') /\
    exists new,
      trace w' = trace w ++ new /\
      (forall s, In (EvSleep s) new -> s = interval) /\
      sleeps new <= cycles /\
      polls new <= sleeps new /\
      (r = Ok tt -> polls new = sleeps new).
Proof.
  induction cycles as [| cycles IH]; intros w r w' H.
  - inversion H; subst. split; [auto |]. exists []. rewrite app_nil_r.
    split; [reflexivity |]. split; [intros s [] |]. cbn. repeat split; auto; discriminate.
  - rewrite run_loop_unfold in H.
    destruct (disrupt env fuel c (emit (EvSleep interval) w)) as [rd w1] eqn:Ed.
    apply keeps_disrupt in Ed. destruct Ed as [_ [Hte1 [Hwf1 [n1 [Hn1 Hf1]]]]].
    world_simpl_in Hn1. world_simpl_in Hte1.
    assert (Hwf1' : well_formed w -> well_formed w1) by exact Hwf1.
    destruct (action_events_counts _ Hf1) as [Hs1 [Hp1 Hno1]].
    (* the cycle up to the end of the disruption *)
    assert (Hq1 : trace w1 = trace w ++ (EvSleep interval :: n1))
      by (rewrite Hn1, <- app_assoc; reflexivity).
    assert (Hsl1 : sleeps (EvSleep interval :: n1) = 1)
      by (change (EvSleep interval :: n1) with ([EvSleep interval] ++ n1);
          rewrite sleeps_app, Hs1; reflexivity).
    assert (Hpl1 : polls (EvSleep interval :: n1) = 0)
      by (change (EvSleep interval :: n1) with ([EvSleep interval] ++ n1);
          rewrite polls_app, Hp1; reflexivity).
    assert (Hin1 : forall s, In (EvSleep s) (EvSleep interval :: n1) -> s = interval).
    { intros s [Heq | Hin]; [congruence | exfalso; exact (Hno1 s Hin)]. }
    assert (Hstop : forall (r0 : Result unit), r0 <> Ok tt -> (r0, w1) = (r, w') ->
              (well_formed w -> well_formed w') /\
              exists new,
                trace w' = trace w ++ new /\
                (forall s, In (EvSleep s) new -> s = interval) /\
                sleeps new <= S cycles /\
                polls new <= sleeps new /\
                (r = Ok tt -> polls new = sleeps new)).
    { intros r0 Hr0 Heq. inversion Heq; subst. split; [exact Hwf1' |].
      exists (EvSleep interval :: n1). rewrite Hsl1, Hpl1.
      repeat split; auto; try lia. intros; contradiction. }
    assert (Hnext : forall w2 q,
              trace w2 = trace w ++ q ->
              (forall s, In (EvSleep s) q -> s = interval) ->
              sleeps q = 1 -> polls q <= 1 ->
              (arg <> None -> polls q = 1) ->
              (well_formed w -> well_formed w2) ->
              match set_target_node env w2 with
              | (Ok _, w3) => run_loop env cycles fuel c interval arg w3
              | (Raise e, w3) => (Raise e, w3)
              | (Blocked, w3) => (Blocked, w3)
              | (OutOfFuel, w3) => (OutOfFuel, w3)
              end = (r, w') ->
              (well_formed w -> well_formed w') /\
              exists new,
                trace w' = trace w ++ new /\
                (forall s, In (EvSleep s) new -> s = interval) /\
                sleeps new <= S cycles /\
                polls new <= sleeps new /\
                (r = Ok tt -> polls new = sleeps new)).
    { intros w2 q Hq Hinq Hsq Hpq Harg Hwf2 Hrun.
      destruct (set_target_node env w2) as [rs w3] eqn:Es.
      destruct (set_target_node_step _ _ _ Es) as [Hn3 [Hx3 [_ [_ [n3 [Htr3 Hf3]]]]]].
      destruct (action_events_counts _ Hf3) as [Hs3 [Hp3 Hno3]].
      assert (Hwf3 : well_formed w -> well_formed w3).
      { intros Hw. specialize (Hwf2 Hw). unfold well_formed in *.
        rewrite Hn3, Hx3. exact Hwf2. }
      assert (Htr : trace w3 = trace w ++ (q ++ n3))
        by (rewrite Htr3, Hq, app_assoc; reflexivity).
      assert (Hin3 : forall s, In (EvSleep s) (q ++ n3) -> s = interval).
      { intros s Hin. apply in_app_or in Hin. destruct Hin as [Hin | Hin];
          [auto | exfalso; exact (Hno3 s Hin)]. }
      destruct rs as [[] | e | |];
        try (inversion Hrun; subst; split; [exact Hwf3 |];
             exists (q ++ n3); rewrite sleeps_app, polls_app, Hs3, Hp3;
             repeat split; auto; try lia; intros; discriminate).
      pose proof Hrun as Hrun'. apply IH in Hrun.
      destruct Hrun as [Hwf [new [Hnew [Hinn [Hsn [Hpn Hok]]]]]].
      split; [auto |].
      exists ((q ++ n3) ++ new). rewrite Hnew, Htr, !app_assoc.
      split; [reflexivity |].
      rewrite <- !app_assoc. rewrite !sleeps_app, !polls_app, Hs3, Hp3.
      split.
      { intros s Hin. apply in_app_or in Hin. destruct Hin as [Hin | Hin]; [auto |].
        apply in_app_or in Hin. destruct Hin as [Hin | Hin];
          [exfalso; exact (Hno3 s Hin) | auto]. }
      split; [lia |]. split; [lia |].
      intros Hr. specialize (Hok Hr).
      destruct arg as [a |].
      - rewrite (Harg ltac:(discriminate)). lia.
      - exfalso. apply run_loop_without_event in Hrun'. destruct Hrun' as [_ Hne].
        exact (Hne Hr). }
    destruct rd as [[] | e | |]; try (eapply Hstop; [| exact H]; discriminate).
    rewrite check_termination_unfold in H.
    destruct arg as [a |].
    + destruct (termination_event w1) as [e |].
      * destruct (env_is_set env (trace w1) e).
        -- inversion H; subst. split.
           { intros Hw. specialize (Hwf1' Hw). exact Hwf1'. }
           exists ((EvSleep interval :: n1) ++ [EvIsSet e true]).
           world_simpl. rewrite Hq1, <- app_assoc.
           split; [reflexivity |]. rewrite sleeps_app, polls_app, Hsl1, Hpl1.
           split.
           { intros s Hin. apply in_app_or in Hin.
             destruct Hin as [Hin | [Hin | []]]; [auto | discriminate Hin]. }
           cbn. repeat split; auto; lia.
        -- apply (Hnext (emit (EvIsSet e false) w1)
                        ((EvSleep interval :: n1) ++ [EvIsSet e false])).
           ++ world_simpl. rewrite Hq1, <- app_assoc. reflexivity.
           ++ intros s Hin. apply in_app_or in Hin.
              destruct Hin as [Hin | [Hin | []]]; [auto | discriminate Hin].
           ++ rewrite sleeps_app, Hsl1. reflexivity.
           ++ rewrite polls_app, Hpl1. cbn. lia.
           ++ intros _. rewrite polls_app, Hpl1. reflexivity.
           ++ exact Hwf1'.
           ++ exact H.
      * eapply Hstop; [| exact H]; discriminate.
    + apply (Hnext w1 (EvSleep interval :: n1)); auto.
      * lia.
      * intros Hc. congruence.
Qed.


(** X10. A node list that holds no node twice stays so through every
    disruption of every strategy and through every run of the
    scheduling loop, however they end. *)
Theorem node_list_stays_well_formed
    (cycles fuel : nat) (c : Monkey) (interval : nat) (arg : option EventId) (w : World) :
  well_formed w ->
  well_formed (snd (disrupt env fuel c w)) /\
  well_formed (snd (run env cycles fuel c interval arg w)).
Proof.
  intros Hwf. split.
  - destruct (disrupt env fuel c w) as [r w'] eqn:E. apply keeps_disrupt in E.
    destruct E as [_ [_ [H _]]]. exact (H Hwf).
  - unfold run.
    destruct (run_loop env cycles fuel c (interval * 60) arg w) as [r w'] eqn:E.
    apply run_loop_invariants in E. destruct E as [H _]. exact (H Hwf).
Qed.

(** Once [self.termination_event] is None, a run given an event ends at
    its first checkpoint with the AttributeError of [None.isSet]. *)
Lemma run_loop_event_cleared cycles fuel c interval a w r w' :
  termination_event w = None ->
  run_loop env cycles fuel c interval (Some a) w = (r, w') ->
  r <> Ok tt.
Proof.
  intros Hte. destruct cycles as [| cycles]; [intros H; inversion H; discriminate |].
  rewrite run_loop_unfold.
  destruct (disrupt env fuel c (emit (EvSleep interval) w)) as [rd w1] eqn:Ed.
  apply keeps_disrupt in Ed. destruct Ed as [_ [Hte1 _]]. world_simpl_in Hte1.
  destruct rd as [[] | e | |]; try (intros H; inversion H; discriminate).
  rewrite check_termination_unfold, Hte1, Hte. intros H; inversion H; discriminate.
Qed.

(** X11. [run] returns normally at most once on an object: the
    checkpoint that ends the loop sets [self.termination_event] to
    None, so any later call of [run] never returns normally; given an
    event, it raises AttributeError at its first checkpoint, after one
    wait and one disruption. *)
Theorem run_returns_normally_at_most_once
    (cycles fuel : nat) (c : Monkey) (interval : nat) (arg : option EventId)
    (w w1 : World) :
  run env cycles fuel c interval arg w = (Ok tt, w1) ->
  forall cycles' fuel' c' interval' arg',
    fst (run env cycles' fuel' c' interval' arg' w1) <> Ok tt /\
    (forall a w2,
       arg' = Some a ->
       disrupt env fuel' c' (emit (EvSleep (interval' * 60)) w1) = (Ok tt, w2) ->
       run env (S cycles') fuel' c' interval' arg' w1 = (Raise AttributeError, w2)).
Proof.
  unfold run. intros H.
  assert (Hte : termination_event w1 = None).
  { apply run_loop_trace in H. destruct H as [new [_ [[_ Hne] | [q [ev [_ [_ [_ Hte]]]]]]]];
      [congruence | exact Hte]. }
  intros cycles' fuel' c' interval' arg'. split.
  - destruct (run_loop env cycles' fuel' c' (interval' * 60) arg' w1) as [r w'] eqn:E.
    cbn [fst]. destruct arg' as [a |].
    + exact (run_loop_event_cleared _ _ _ _ _ _ _ _ Hte E).
    + exact (proj2 (run_loop_without_event env _ _ _ _ _ _ _ E)).
  - intros a w2 -> Hd. rewrite run_loop_unfold, Hd.
    assert (Hte2 : termination_event w2 = None).
    { apply keeps_disrupt in Hd. destruct Hd as [_ [Hk _]]. world_simpl_in Hk. congruence. }
    rewrite check_termination_unfold, Hte2. reflexivity.
Qed.

End LoopInvariants.

Lemma node_list_stays_well_formed_witness :
  well_formed world0 /\
  well_formed (snd (disrupt env_never_set 3 DecommissionMonkey world0)) /\
  well_formed (snd (run env_never_set 2 3 DecommissionMonkey 1 (Some 7) world0)).
Proof.
  assert (H : well_formed world0).
  { split.
    - repeat constructor; simpl; intuition discriminate.
    - simpl. intros x [<- | [<- | [<- | []]]]; simpl; lia. }
  split; [exact H |].
  exact (node_list_stays_well_formed env_never_set 2 3 DecommissionMonkey 1 (Some 7)
           world0 H).
Defined.

Lemma run_returns_normally_at_most_once_witness :
  fst (run env0 3 0 StopStartMonkey 1 (Some 7)
           (snd (run env0 2 0 StopStartMonkey 1 (Some 7) world0))) <> Ok tt.
Proof.
  exact (proj1 (run_returns_normally_at_most_once env0 2 0 StopStartMonkey 1 (Some 7)
                  world0 (snd (run env0 2 0 StopStartMonkey 1 (Some 7) world0))
                  eq_refl 3 0 StopStartMonkey 1 (Some 7))).
Defined.

(** ** Construction *)

Section Construction.

Variable env : Env.

Lemma non_seed_nodes_with_target t w :
  non_seed_nodes (with_target t w) = non_seed_nodes w.
Proof. reflexivity. Qed.

(** X12. [__init__] selects the target before it stores the
    termination event.  On a cluster with a node that is not a seed it
    ends normally: the target is a node of the cluster that is not a
    seed, the event given is stored, the node list is untouched and the
    one thing logged is the target.  On a cluster of seeds only it ends
    with the IndexError of the selection, and then neither a target nor
    the termination event has been set. *)
Theorem init_selects_target_then_stores_event (te : option EventId) (w : World) :
  ((exists n, In n (cluster_nodes w) /\ is_seed n = false) ->
   exists w',
     __init__ env te w = (Ok tt, w') /\
     valid_target w' /\
     termination_event w' = te /\
     cluster_nodes w' = cluster_nodes w /\
     events_since w w' = [EvLog INFO "Current Target: %s" [ANode (target_node w')] None]) /\
  ((forall n, In n (cluster_nodes w) -> is_seed n = true) ->
   __init__ env te w = (Raise IndexError, with_target None w)).
Proof.
  assert (Hinit : __init__ env te w =
            match random_choice env (non_seed_nodes w) (with_target None w) with
            | (Ok chosen, w1) =>
                (Ok tt, with_termination_event te
                          (emit (EvLog INFO "Current Target: %s" [ANode (Some chosen)] None)
                                (with_target (Some chosen) w1)))
            | (Raise e, w1) => (Raise e, w1)
            | (Blocked, w1) => (Blocked, w1)
            | (OutOfFuel, w1) => (OutOfFuel, w1)
            end).
  { unfold __init__. unfold bind at 1, modify at 1. unfold bind at 1.
    rewrite set_target_node_unfold, non_seed_nodes_with_target.
    destruct (random_choice env (non_seed_nodes w) (with_target None w))
      as [[chosen | e | |] w1]; reflexivity. }
  rewrite Hinit. clear Hinit.
  destruct (random_choice env (non_seed_nodes w) (with_target None w)) as [rc w1] eqn:Ec.
  apply random_choice_inv in Ec. split.
  - intros [n [Hin Hseed]].
    destruct Ec as [[Hnil _] | [x [-> [-> Hnth]]]].
    + exfalso. assert (Hn : In n (non_seed_nodes w)).
      { unfold non_seed_nodes. apply filter_In. rewrite Hseed. auto. }
      rewrite Hnil in Hn. exact Hn.
    + eexists. split; [reflexivity |]. world_simpl.
      apply nth_error_In in Hnth. unfold non_seed_nodes in Hnth.
      apply filter_In in Hnth. destruct Hnth as [Hx Hs]. apply negb_true_iff in Hs.
      split; [exists x; world_simpl; auto |]. split; [reflexivity |].
      split; [reflexivity |]. apply events_since_app. reflexivity.
  - intros Hall.
    destruct Ec as [[_ [-> ->]] | [x [_ [_ Hnth]]]]; [reflexivity |].
    exfalso. apply nth_error_In in Hnth. unfold non_seed_nodes in Hnth.
    apply filter_In in Hnth. destruct Hnth as [Hx Hs].
    rewrite (Hall x Hx) in Hs. discriminate Hs.
Qed.

End Construction.

Lemma init_selects_target_then_stores_event_witness :
  (exists w',
     __init__ env0 (Some 7) world0 = (Ok tt, w') /\
     valid_target w' /\ termination_event w' = Some 7) /\
  __init__ env0 (Some 7) world_seeds = (Raise IndexError, with_target None world_seeds).
Proof.
  destruct (init_selects_target_then_stores_event env0 (Some 7) world0) as [Hok _].
  destruct (init_selects_target_then_stores_event env0 (Some 7) world_seeds) as [_ Hseeds].
  split.
  - destruct Hok as [w' [H1 [H2 [H3 _]]]].
    + exists node1. split; [simpl; auto | reflexivity].
    + exists w'. auto.
  - apply Hseeds. simpl. intros n [<- | []]. reflexivity.
Defined.

(** ** Strategies that leave the cluster alone *)

Section QuietStrategies.

Variable env : Env.

Lemma only_history_log_time_elapsed c (method : M unit) :
  only_history method -> only_history (log_time_elapsed env c method).
Proof.
  intros Hm w r w'. rewrite log_time_elapsed_unfold.
  destruct (method (started env c w)) as [rm w1] eqn:Em. apply Hm in Em.
  assert (Hs : history_only w (started env c w)).
  { unfold started. eapply history_only_trans; apply history_only_emit; reflexivity. }
  assert (Hk : history_only w w1) by (eapply history_only_trans; eassumption).
  assert (Hfin : history_only w (finished env c w w1)).
  { unfold finished. eapply history_only_trans; [exact Hk |].
    eapply history_only_trans; apply history_only_emit; reflexivity. }
  destruct rm as [[] | e | |]; intros E; inversion E; subst; assumption.
Qed.

Lemma only_history_disrupt fuel c :
  c <> DecommissionMonkey -> c <> ChaosMonkey -> only_history (disrupt env fuel c).
Proof.
  intros Hd Hc. destruct c; cbn [disrupt]; try congruence.
  - apply only_history_raise.
  - apply only_history_log_time_elapsed, only_history_disrupt_stop_start.
  - apply only_history_log_time_elapsed, only_history_disrupt_nodetool_drain.
  - apply only_history_log_time_elapsed, only_history_disrupt_destroy_data_then_repair.
  - apply only_history_log_time_elapsed, only_history_disrupt_destroy_data_then_rebuild.
Qed.

Lemma set_target_node_fails w r w' :
  set_target_node env w = (r, w') -> r <> Ok tt -> w' = w.
Proof.
  rewrite set_target_node_unfold.
  destruct (random_choice env (non_seed_nodes w) w) as [rc wc] eqn:Ec.
  apply random_choice_inv in Ec.
  destruct Ec as [[_ [-> ->]] | [x [-> _]]]; intros E Hr; inversion E; subst;
    [reflexivity | contradiction].
Qed.

Lemma run_loop_quiet_strategy cycles fuel c interval arg :
  c <> DecommissionMonkey -> c <> ChaosMonkey ->
  forall w r w',
    run_loop env cycles fuel c interval arg w = (r, w') ->
    cluster_nodes w' = cluster_nodes w /\
    next_node_id w' = next_node_id w /\
    (valid_target w -> valid_target w').
Proof.
  intros Hd Hc. induction cycles as [| cycles IH]; intros w r w' H.
  - inversion H; subst. auto.
  - rewrite run_loop_unfold in H.
    destruct (disrupt env fuel c (emit (EvSleep interval) w)) as [rd w1] eqn:Ed.
    apply (only_history_disrupt fuel c Hd Hc) in Ed.
    apply history_only_fields in Ed.
    destruct Ed as [Hn1 [Ht1 [_ [_ [Hx1 _]]]]].
    world_simpl_in Hn1. world_simpl_in Ht1. world_simpl_in Hx1.
    assert (Hv1 : valid_target w -> valid_target w1).
    { unfold valid_target. rewrite Hn1, Ht1. auto. }
    assert (Hnext : forall w2,
              cluster_nodes w2 = cluster_nodes w -> next_node_id w2 = next_node_id w ->
              (valid_target w -> valid_target w2) ->
              match set_target_node env w2 with
              | (Ok _, w3) => run_loop env cycles fuel c interval arg w3
              | (Raise e, w3) => (Raise e, w3)
              | (Blocked, w3) => (Blocked, w3)
              | (OutOfFuel, w3) => (OutOfFuel, w3)
              end = (r, w') ->
              cluster_nodes w' = cluster_nodes w /\
              next_node_id w' = next_node_id w /\
              (valid_target w -> valid_target w')).
    { intros w2 Hn2 Hx2 Hv2 Hrun.
      destruct (set_target_node env w2) as [rs w3] eqn:Es.
      destruct (set_target_node_step env _ _ _ Es) as [Hn3 [Hx3 [_ [Hv3 _]]]].
      destruct rs as [[] | e | |];
        try (apply set_target_node_fails in Es; [| discriminate]; subst w3;
             inversion Hrun; subst; auto).
      apply IH in Hrun. destruct Hrun as [Hn [Hx Hv]].
      split; [congruence |]. split; [congruence |]. auto. }
    destruct rd as [[] | e | |]; try (inversion H; subst; auto).
    rewrite check_termination_unfold in H.
    destruct arg as [a |].
    + destruct (termination_event w1) as [e |].
      * destruct (env_is_set env (trace w1) e).
        -- inversion H; subst. world_simpl. split; [exact Hn1 |]. split; [exact Hx1 |].
           intros Hv. specialize (Hv1 Hv). exact Hv1.
        -- apply (Hnext (emit (EvIsSet e false) w1)); auto.
      * inversion H; subst. auto.
    + apply (Hnext w1); auto.
Qed.

(** X13. In a run of a strategy that neither decommissions nor chooses
    its disruption at random (the base class, StopStart, Drainer and
    the two Corrupt strategies), the cluster's node list is never
    changed, and a target that was a node of the cluster and not a seed
    when the run began is one when the run ends, however it ends. *)
Theorem quiet_strategies_keep_cluster_and_target
    (cycles fuel : nat) (c : Monkey) (interval : nat) (arg : option EventId) (w : World) :
  c <> DecommissionMonkey -> c <> ChaosMonkey ->
  cluster_nodes (snd (run env cycles fuel c interval arg w)) = cluster_nodes w /\
  (valid_target w -> valid_target (snd (run env cycles fuel c interval arg w))).
Proof.
  intros Hd Hc. unfold run.
  destruct (run_loop env cycles fuel c (interval * 60) arg w) as [r w'] eqn:E.
  apply (run_loop_quiet_strategy _ _ _ _ _ Hd Hc) in E. cbn [snd].
  destruct E as [Hn [_ Hv]]. auto.
Qed.

End QuietStrategies.

Lemma quiet_strategies_keep_cluster_and_target_witness :
  cluster_nodes (snd (run env_never_set 3 0 CorruptThenRebuildMonkey 1 (Some 7) world0))
    = cluster_nodes world0 /\
  valid_target (snd (run env_never_set 3 0 CorruptThenRebuildMonkey 1 (Some 7) world0)).
Proof.
  destruct (quiet_strategies_keep_cluster_and_target env_never_set 3 0
              CorruptThenRebuildMonkey 1 (Some 7) world0) as [Hn Hv];
    [discriminate | discriminate |].
  split; [exact Hn |]. apply Hv.
  exists node1. split; [reflexivity |]. split; [simpl; auto | reflexivity].
Defined.

(** ** The decorator, and errors that are not Exceptions *)

Section Decorator.

Variable env : Env.


(** X15. An error that is not an [Exception] (KeyboardInterrupt,
    SystemExit) raised by the method the dispatcher has drawn is not
    caught: it leaves the dispatcher with nothing logged, leaves
    [ChaosMonkey.disrupt] after the duration record, and leaves [run],
    which neither reaches its checkpoint nor selects a new target. *)
Theorem chaos_lets_non_exceptions_through
    (cycles fuel : nat) (interval : nat) (arg : option EventId)
    (w : World) (m : Member) (w0 : World) (e : exc) (w1 : World) :
  random_choice env disrupt_methods
    (started env ChaosMonkey (emit (EvSleep (interval * 60)) w)) = (Ok m, w0) ->
  call_member env fuel m w0 = (Raise e, w1) ->
  isinstance_Exception e = false ->
  call_random_disrupt_method env fuel
    (started env ChaosMonkey (emit (EvSleep (interval * 60)) w)) = (Raise e, w1) /\
  disrupt env fuel ChaosMonkey (emit (EvSleep (interval * 60)) w)
    = (Raise e, finished env ChaosMonkey (emit (EvSleep (interval * 60)) w) w1) /\
  run env (S cycles) fuel ChaosMonkey interval arg w
    = (Raise e, finished env ChaosMonkey (emit (EvSleep (interval * 60)) w) w1).
Proof.
  intros Hc Hm He.
  assert (Hdisp : call_random_disrupt_method env fuel
                    (started env ChaosMonkey (emit (EvSleep (interval * 60)) w))
                  = (Raise e, w1)).
  { unfold call_random_disrupt_method. unfold bind at 1. rewrite Hc.
    unfold try_except_Exception. rewrite Hm, He. reflexivity. }
  assert (Hdis : disrupt env fuel ChaosMonkey (emit (EvSleep (interval * 60)) w)
                 = (Raise e, finished env ChaosMonkey (emit (EvSleep (interval * 60)) w) w1)).
  { cbn [disrupt]. rewrite log_time_elapsed_unfold, Hdisp. reflexivity. }
  split; [exact Hdisp |]. split; [exact Hdis |].
  unfold run. rewrite run_loop_unfold, Hdis. reflexivity.
Qed.

End Decorator.


Lemma chaos_lets_non_exceptions_through_witness :
  fst (run env_interrupted 2 0 ChaosMonkey 1 None world0)
    = Raise (OtherError "KeyboardInterrupt" false) /\
  sleeps (trace (snd (run env_interrupted 2 0 ChaosMonkey 1 None world0))) = 1.
Proof.
  destruct (chaos_lets_non_exceptions_through env_interrupted 1 0 1 None world0
              (Method m_disrupt_destroy_data_then_rebuild)
              (with_rng_pos 1 (started env_interrupted ChaosMonkey (emit (EvSleep 60) world0)))
              (OtherError "KeyboardInterrupt" false)
              (snd (disrupt_destroy_data_then_rebuild env_interrupted
                      (with_rng_pos 1
                         (started env_interrupted ChaosMonkey (emit (EvSleep 60) world0))))))
    as [_ [_ Hrun]]; try reflexivity.
  rewrite Hrun. split; reflexivity.
Defined.

(** ** The target after a run of decommissions *)

Section StaleTarget.

Variable env : Env.

Lemma well_formed_emit ev w : well_formed w -> well_formed (emit ev w).
Proof. intros H. exact H. Qed.

(** A decommission that ends normally leaves a target that is no longer
    in the node list. *)
Lemma decommission_monkey_cycle fuel w0 w1 :
  disrupt env fuel DecommissionMonkey w0 = (Ok tt, w1) ->
  well_formed w0 ->
  exists n, target_node w1 = Some n /\ ~ In n (cluster_nodes w1).
Proof.
  cbn [disrupt]. rewrite log_time_elapsed_unfold.
  destruct (disrupt_nodetool_decommission env fuel (started env DecommissionMonkey w0))
    as [rm wm] eqn:E.
  destruct rm as [[] | e | |]; intros H; inversion H; subst. clear H.
  intros Hwf.
  destruct (target_node (started env DecommissionMonkey w0)) as [n |] eqn:Ht.
  - destruct (decommission_outcome env fuel _ n _ _ Ht E)
      as [Ht' [_ [new [_ [_ Hcase]]]]].
    exists n. unfold finished. world_simpl. split; [exact Ht' |].
    destruct Hcase as [[_ [_ [Hr _]]] | [rest [v [infos [pre [calls [Hrm [_ [_ [_ Hshape]]]]]]]]]];
      [congruence |].
    unfold started in Hrm. world_simpl_in Hrm.
    destruct (list_remove_Some _ _ _ Hrm) as [_ [Hin [_ Hout]]].
    destruct Hwf as [Hnd Hid]. destruct (Hout Hnd) as [Hgone _].
    destruct Hshape as [[o [Ho [Hr _]]]
                       | [[o [Ho [Hr _]]]
                         | [new_node [o [_ [_ [Hnew_id [_ Hn]]]]]]]].
    + exfalso. apply Ho. apply outcome_result_Ok. congruence.
    + exfalso. apply Ho. apply outcome_result_Ok. congruence.
    + rewrite Hn. intros Hx. apply in_app_or in Hx.
      destruct Hx as [Hx | [Hx | []]]; [exact (Hgone Hx) |].
      subst new_node. unfold started in Hnew_id. world_simpl_in Hnew_id.
      apply Hid in Hin. lia.
  - exfalso. revert E. unfold disrupt_nodetool_decommission.
    unfold bind at 1, get at 1. rewrite Ht.
    unfold bind at 1, log at 1, modify at 1. unfold bind at 1, deref at 1, raise at 1.
    discriminate.
Qed.

Lemma run_loop_decommission_monkey cycles fuel interval arg :
  forall w w',
    run_loop env cycles fuel DecommissionMonkey interval arg w = (Ok tt, w') ->
    well_formed w ->
    exists n, target_node w' = Some n /\ ~ In n (cluster_nodes w').
Proof.
  induction cycles as [| cycles IH]; intros w w' H Hwf; [inversion H |].
  rewrite run_loop_unfold in H.
  destruct (disrupt env fuel DecommissionMonkey (emit (EvSleep interval) w))
    as [rd w1] eqn:Ed.
  destruct rd as [[] | e | |]; try discriminate H.
  pose proof (decommission_monkey_cycle _ _ _ Ed (well_formed_emit _ _ Hwf)) as Hstale.
  assert (Hwf1 : well_formed w1).
  { apply keeps_disrupt in Ed. destruct Ed as [_ [_ [Hk _]]].
    exact (Hk (well_formed_emit _ _ Hwf)). }
  assert (Hnext : forall w2,
            cluster_nodes w2 = cluster_nodes w1 -> next_node_id w2 = next_node_id w1 ->
            match set_target_node env w2 with
            | (Ok _, w3) => run_loop env cycles fuel DecommissionMonkey interval arg w3
            | (Raise e, w3) => (Raise e, w3)
            | (Blocked, w3) => (Blocked, w3)
            | (OutOfFuel, w3) => (OutOfFuel, w3)
            end = (Ok tt, w') ->
            exists n, target_node w' = Some n /\ ~ In n (cluster_nodes w')).
  { intros w2 Hn2 Hx2 Hrun.
    destruct (set_target_node env w2) as [rs w3] eqn:Es.
    destruct (set_target_node_step env _ _ _ Es) as [Hn3 [Hx3 _]].
    destruct rs as [[] | e | |]; try discriminate Hrun.
    apply IH in Hrun; [exact Hrun |].
    unfold well_formed in *. rewrite Hn3, Hx3, Hn2, Hx2. exact Hwf1. }
  rewrite check_termination_unfold in H.
  destruct arg as [a |].
  - destruct (termination_event w1) as [e |]; [| discriminate H].
    destruct (env_is_set env (trace w1) e).
    + inversion H; subst. world_simpl. exact Hstale.
    + apply (Hnext (emit (EvIsSet e false) w1)); auto.
  - apply (Hnext w1); auto.
Qed.

(** X16. When a run of the DecommissionMonkey returns normally (the
    termination event was seen set), the target it leaves behind is the
    node decommissioned in the last cycle, which is no longer in the
    cluster's node list: the loop is left before a new target is
    selected.  A decommission called on the object after that does not
    end normally. *)
Theorem decommission_run_leaves_stale_target
    (cycles fuel : nat) (interval : nat) (arg : option EventId) (w w' : World) :
  well_formed w ->
  run env cycles fuel DecommissionMonkey interval arg w = (Ok tt, w') ->
  exists n,
    target_node w' = Some n /\ ~ In n (cluster_nodes w') /\
    forall fuel', fst (disrupt_nodetool_decommission env fuel' w') <> Ok tt.
Proof.
  unfold run. intros Hwf H.
  destruct (run_loop_decommission_monkey _ _ _ _ _ _ H Hwf) as [n [Ht Hout]].
  exists n. split; [exact Ht |]. split; [exact Hout |].
  intros fuel'.
  destruct (disrupt_nodetool_decommission env fuel' w') as [r w2] eqn:E. cbn [fst].
  destruct (decommission_outcome env fuel' w' n r w2 Ht E) as [_ [_ [new [_ [_ Hcase]]]]].
  destruct Hcase as [[_ [_ [Hr _]]] | [rest [v [infos [pre [calls [Hrm _]]]]]]];
    [exact Hr |].
  rewrite (list_remove_not_in _ _ Hout) in Hrm. discriminate Hrm.
Qed.

End StaleTarget.

Lemma decommission_run_leaves_stale_target_witness :
  fst (run env0 2 3 DecommissionMonkey 1 (Some 7) world0) = Ok tt /\
  exists n,
    target_node (snd (run env0 2 3 DecommissionMonkey 1 (Some 7) world0)) = Some n /\
    ~ In n (cluster_nodes (snd (run env0 2 3 DecommissionMonkey 1 (Some 7) world0))).
Proof.
  split; [reflexivity |].
  destruct (decommission_run_leaves_stale_target env0 2 3 1 (Some 7) world0
              (snd (run env0 2 3 DecommissionMonkey 1 (Some 7) world0)))
    as [n [Ht [Hout _]]].
  - split.
    + repeat constructor; simpl; intuition discriminate.
    + simpl. intros x [<- | [<- | [<- | []]]]; simpl; lia.
  - vm_compute. reflexivity.
  - exists n. auto.
Defined.
